(** * Task deletion (os/kernel/task/task_delete.c) and gathered write
      (lib/libc/uio/lib_writev.c) of TizenRT: a shallow embedding and the
      properties of its specification.

    The two C functions are translated into executable Rocq functions.
    State is threaded explicitly; the calls a function makes to code that
    lives in other files (sched_lock, notify_cancellation, task_terminate,
    exit, write, lseek) are recorded in a trace, so that "is called exactly
    once" and "is called before" become statements about lists.

    The file has two parts.  The first holds the definitions: the two
    programs ([TaskDelete], [Writev]) and the words in which their
    specification is stated ([TaskDeleteTerms], [WritevTerms]).  The second
    holds the proofs: general facts ([TaskDeleteFacts], [WritevFacts]) and
    the properties of the specification, one theorem each
    ([TaskDeleteSpec], [WritevSpec]). *)

From stdpp Require Import gmap list.
From Stdlib Require Import ZArith Lia.

Local Open Scope Z_scope.

(** Return values of <tinyara/config.h> / <sys/types.h>. *)
Definition OK : Z := 0.
Definition ERROR : Z := -1.

(** ** Machine integers

    [int] is a 32-bit two's complement integer on the targets of this
    kernel.  [int_wrap] is the value a 32-bit register holds after an
    arithmetic result [z]. *)
Definition INT_BITS : Z := 32.
Definition INT_MIN : Z := - 2 ^ (INT_BITS - 1).
Definition INT_MAX : Z := 2 ^ (INT_BITS - 1) - 1.

Definition swrap (bits z : Z) : Z :=
  (z + 2 ^ (bits - 1)) mod 2 ^ bits - 2 ^ (bits - 1).
Definition uwrap (bits z : Z) : Z := z mod 2 ^ bits.

Definition int_wrap (z : Z) : Z := swrap INT_BITS z.

(** ** os/kernel/task/task_delete.c *)
Module TaskDelete.

Definition EXIT_SUCCESS : Z := 0.

(** The fields of [struct tcb_s] that task_delete reads or writes.  The
    task's pid is the key under which the record is registered. *)
Record tcb_s : Type := mk_tcb {
  flags : Z;      (* bit set of TCB_FLAG_* *)
  cpcount : Z     (* nesting count of cancellation points entered *)
}.

Definition set_flags (f : Z) (t : tcb_s) : tcb_s :=
  {| flags := f; cpcount := cpcount t |}.

(** What task_delete can see and change of the kernel.
    - [rtcb_pid] is [g_readytorun.head->pid], the pid of the running task;
    - [g_pidhash] is the table [sched_gettcb] searches;
    - [lockcount] is the counter [sched_lock]/[sched_unlock] move;
    - [errno] is the caller's errno. *)
Record kernel : Type := mk_kernel {
  rtcb_pid : Z;
  g_pidhash : gmap Z tcb_s;
  lockcount : Z;
  errno : Z
}.

Definition with_pidhash (h : gmap Z tcb_s) (k : kernel) : kernel :=
  {| rtcb_pid := rtcb_pid k; g_pidhash := h;
     lockcount := lockcount k; errno := errno k |}.
Definition with_lockcount (n : Z) (k : kernel) : kernel :=
  {| rtcb_pid := rtcb_pid k; g_pidhash := g_pidhash k;
     lockcount := n; errno := errno k |}.
Definition with_errno (e : Z) (k : kernel) : kernel :=
  {| rtcb_pid := rtcb_pid k; g_pidhash := g_pidhash k;
     lockcount := lockcount k; errno := e |}.

(** The build configuration and the constants of <tinyara/sched.h> and
    <errno.h>, none of which task_delete.c defines itself. *)
Record config : Type := mk_config {
  CONFIG_CANCELLATION_POINTS : bool;   (* #ifdef at line 180 *)
  CONFIG_DEBUG : bool;                 (* DEBUGASSERT is compiled in *)
  TCB_FLAG_TTYPE_MASK : Z;
  TCB_FLAG_TTYPE_PTHREAD : Z;
  TCB_FLAG_NONCANCELABLE : Z;
  TCB_FLAG_CANCEL_DEFERRED : Z;
  TCB_FLAG_CANCEL_PENDING : Z;
  ESRCH : Z
}.

(** The functions of other files that task_delete calls and whose effect
    on the kernel it does not control.  Both receive the state as
    task_delete left it at the call. *)
Record collaborators : Type := mk_collab {
  notify_cancellation_fx : Z -> kernel -> kernel;
  task_terminate_fx : Z -> bool -> kernel -> Z * kernel
}.

(** Calls that leave task_delete, in program order. *)
Inductive event : Type :=
| EvLock                                 (* sched_lock() *)
| EvUnlock                               (* sched_unlock() *)
| EvNotify (pid : Z)                     (* notify_cancellation(dtcb) *)
| EvTerminate (pid : Z) (nonblocking : bool)  (* task_terminate(pid, nb) *)
| EvExit (status : Z).                   (* exit(status) *)

(** How a call ends: it returns a value to its caller, it ends the
    calling task in exit() and never comes back, or it stops in a failed
    DEBUGASSERT. *)
Inductive outcome (A : Type) : Type :=
| Returned (a : A)
| Exited (status : Z)
| AssertFailed.
Arguments Returned {A} a.
Arguments Exited {A} status.
Arguments AssertFailed {A}.

(** State-and-trace monad. *)
Definition M (A : Type) : Type := kernel -> outcome A * kernel * list event.

Definition ret {A} (a : A) : M A := fun k => (Returned a, k, []).

Definition bind {A B} (m : M A) (f : A -> M B) : M B := fun k =>
  match m k with
  | (Returned a, k1, t1) =>
      match f a k1 with (o, k2, t2) => (o, k2, t1 ++ t2) end
  | (Exited s, k1, t1) => (Exited s, k1, t1)
  | (AssertFailed, k1, t1) => (AssertFailed, k1, t1)
  end.

Declare Scope kernel_scope.
Delimit Scope kernel_scope with kernel.
Notation "x <- m ;; f" := (bind m (fun x => f))
  (at level 100, m at next level, right associativity) : kernel_scope.
Notation "m ;;; f" := (bind m (fun _ => f))
  (at level 100, right associativity) : kernel_scope.
Local Open Scope kernel_scope.

Definition get : M kernel := fun k => (Returned k, k, []).
Definition modify (f : kernel -> kernel) : M unit :=
  fun k => (Returned tt, f k, []).
Definition emit (e : event) : M unit := fun k => (Returned tt, k, [e]).

Section Protocol.

Context (cfg : config) (env : collaborators).

(** Modelled from the spec: sched_lock and sched_unlock (sched/sched_lock.c,
    sched/sched_unlock.c are not among the sources): "acquire increments a
    nesting counter ...; release decrements the counter". *)
Definition sched_lock : M unit :=
  emit EvLock ;;; modify (fun k => with_lockcount (lockcount k + 1) k).
Definition sched_unlock : M unit :=
  emit EvUnlock ;;; modify (fun k => with_lockcount (lockcount k - 1) k).

(** Modelled from the spec: sched_gettcb (sched/sched_gettcb.c is not among
    the sources): "lookup(id) -> Option<TaskHandle>; no side effects; None
    if id unknown or task already gone". *)
Definition sched_gettcb (pid : Z) : M (option tcb_s) :=
  k <- get ;; ret (g_pidhash k !! pid).

Definition set_errno (e : Z) : M unit := modify (with_errno e).

Definition notify_cancellation (dtcb : Z) : M unit :=
  emit (EvNotify dtcb) ;;; modify (notify_cancellation_fx env dtcb).

Definition task_terminate (pid : Z) (nonblocking : bool) : M Z :=
  emit (EvTerminate pid nonblocking) ;;;
  (fun k => match task_terminate_fx env pid nonblocking k with
            | (r, k') => (Returned r, k', [])
            end).

Definition exit {A} (status : Z) : M A :=
  fun k => (Exited status, k, [EvExit status]).

Definition DEBUGASSERT (b : bool) : M unit :=
  fun k => if CONFIG_DEBUG cfg && negb b
           then (AssertFailed, k, [])
           else (Returned tt, k, []).

(** [dtcb->flags |= bits]: a read-modify-write of the registered record.
    An or of two values of the width of [flags] stays in that width. *)
Definition or_flags (dtcb : Z) (bits : Z) : M unit :=
  modify (fun k =>
    with_pidhash (alter (fun t => set_flags (Z.lor (flags t) bits) t)
                        dtcb (g_pidhash k)) k).

(** [(flags & mask) != 0] *)
Definition flag_set (f mask : Z) : bool := negb (Z.land f mask =? 0).

(** task_delete, lines 123-224.  [dtcb] points into the registry; while
    task_delete uses it the only write to the record is task_delete's own
    [|=], which leaves [cpcount] alone, so the reads use the record the
    lookup returned. *)
Definition task_delete (pid : Z) : M Z :=
  k0 <- get ;;
  let rtcb := rtcb_pid k0 in
  let pid := if pid =? 0 then rtcb else pid in
  o <- sched_gettcb pid ;;
  match o with
  | None => set_errno (ESRCH cfg) ;;; ret ERROR
  | Some dtcb =>
      DEBUGASSERT (negb (Z.land (flags dtcb) (TCB_FLAG_TTYPE_MASK cfg)
                         =? TCB_FLAG_TTYPE_PTHREAD cfg)) ;;;
      sched_lock ;;;
      if flag_set (flags dtcb) (TCB_FLAG_NONCANCELABLE cfg) then
        or_flags pid (TCB_FLAG_CANCEL_PENDING cfg) ;;;
        sched_unlock ;;;
        ret OK
      else if CONFIG_CANCELLATION_POINTS cfg
              && flag_set (flags dtcb) (TCB_FLAG_CANCEL_DEFERRED cfg) then
        or_flags pid (TCB_FLAG_CANCEL_PENDING cfg) ;;;
        (if 0 <? cpcount dtcb then notify_cancellation pid else ret tt) ;;;
        sched_unlock ;;;
        ret OK
      else
        sched_unlock ;;;
        (if pid =? rtcb then exit EXIT_SUCCESS else ret tt) ;;;
        r <- task_terminate pid false ;;
        if r <? 0 then
          set_errno (int_wrap (- r)) ;;;
          ret ERROR
        else ret OK
  end.

End Protocol.

(** Values to run the model with, in the layout of <tinyara/sched.h>:
    bits 0-1 hold the thread type (1 is a pthread), bit 2 non-cancelable,
    bit 3 deferred cancellation type, bit 4 cancel pending.  The theorems
    do not depend on them. *)
Definition tizenrt (cp dbg : bool) : config :=
  {| CONFIG_CANCELLATION_POINTS := cp;
     CONFIG_DEBUG := dbg;
     TCB_FLAG_TTYPE_MASK := 3;
     TCB_FLAG_TTYPE_PTHREAD := 1;
     TCB_FLAG_NONCANCELABLE := 4;
     TCB_FLAG_CANCEL_DEFERRED := 8;
     TCB_FLAG_CANCEL_PENDING := 16;
     ESRCH := 3 |}.

End TaskDelete.

(** ** lib/libc/uio/lib_writev.c *)
Module Writev.

Inductive whence : Type := SEEK_SET | SEEK_CUR.

(** [struct iovec]: the address of an area of memory and its length. *)
Record iovec : Type := mk_iovec {
  iov_base : Z;
  iov_len : Z      (* size_t *)
}.

(** The caller's errno and the state of the files, of a type [F] that the
    file system chooses. *)
Record world (F : Type) : Type := mk_world {
  errno : Z;
  fs : F
}.
Arguments mk_world {F} errno fs.
Arguments errno {F} w.
Arguments fs {F} w.

Definition get_errno {F} (w : world F) : Z := errno w.
Definition set_errno {F} (e : Z) (w : world F) : world F :=
  {| errno := e; fs := fs w |}.

(** write() and lseek() belong to the file system.  Each returns its
    result and the world it leaves, errno included. *)
Record syscalls (F : Type) : Type := mk_syscalls {
  lseek : Z -> Z -> whence -> world F -> Z * world F;
  write : Z -> Z -> Z -> world F -> Z * world F
}.
Arguments lseek {F} s fildes offset wh w.
Arguments write {F} s fildes buffer nbytes w.

(** Calls that leave writev, in program order, each with its arguments and
    its result; a write also records the errno it left behind. *)
Inductive event : Type :=
| EvLseek (fildes offset : Z) (wh : whence) (result : Z)
| EvWrite (fildes buffer nbytes : Z) (result : Z) (errno_after : Z).

(** How a run ends: writev returns a value; or the fuel that bounds the
    do-while loop is used up (the C loop is still running); or the for
    loop reads an entry beyond the end of the array. *)
Inductive outcome : Type :=
| Done (ret : Z)
| OutOfFuel
| OutOfBounds.

Section Program.

Context {F : Type} (sys : syscalls F).
(** Width of ssize_t and size_t (<sys/types.h>). *)
Context (SSIZE_BITS : Z).

(** Lines 127-156, the do-while loop that writes one area.  The result is
    [inl o] when writev leaves through [return ERROR] (or runs out of
    fuel) and [inr ntotal] when the loop ends and the for loop goes on. *)
Fixpoint write_area (fuel : nat) (fildes pos : Z)
    (buffer remaining ntotal : Z) (w : world F)
    : (outcome + Z) * world F * list event :=
  match fuel with
  | O => (inl OutOfFuel, w, [])
  | S fuel' =>
      let '(nwritten, w1) := write sys fildes buffer remaining w in
      let ev := EvWrite fildes buffer remaining nwritten (get_errno w1) in
      if nwritten <? 0 then
        let save := get_errno w1 in
        let '(r, w2) := lseek sys fildes pos SEEK_SET w1 in
        (inl (Done ERROR), set_errno save w2,
         [ev; EvLseek fildes pos SEEK_SET r])
      else
        let buffer' := buffer + nwritten in
        let remaining' := uwrap SSIZE_BITS (remaining - nwritten) in
        let ntotal' := swrap SSIZE_BITS (ntotal + nwritten) in
        if 0 <? remaining' then
          let '(o, w3, tr) :=
            write_area fuel' fildes pos buffer' remaining' ntotal' w1 in
          (o, w3, ev :: tr)
        else (inr ntotal', w1, [ev])
  end.

(** Lines 118-158, the for loop, [count] entries from index [i] on. *)
Fixpoint each_iov (fuel : nat) (fildes pos : Z) (iov : list iovec)
    (count i : nat) (ntotal : Z) (w : world F)
    : outcome * world F * list event :=
  match count with
  | O => (Done ntotal, w, [])
  | S count' =>
      match iov !! i with
      | None => (OutOfBounds, w, [])
      | Some v =>
          if 0 <? iov_len v then
            match write_area fuel fildes pos (iov_base v) (iov_len v) ntotal w with
            | (inl o, w1, tr) => (o, w1, tr)
            | (inr ntotal', w1, tr) =>
                let '(o, w2, tr') :=
                  each_iov fuel fildes pos iov count' (S i) ntotal' w1 in
                (o, w2, tr ++ tr')
            end
          else each_iov fuel fildes pos iov count' (S i) ntotal w
      end
  end.

(** writev, lines 100-161. *)
Definition writev (fuel : nat) (fildes : Z) (iov : list iovec) (iovcnt : Z)
    (w : world F) : outcome * world F * list event :=
  let '(pos, w0) := lseek sys fildes 0 SEEK_CUR w in
  let ev := EvLseek fildes 0 SEEK_CUR pos in
  if pos =? -1 then (Done ERROR, w0, [ev])
  else
    let '(o, w1, tr) :=
      each_iov fuel fildes pos iov (Z.to_nat iovcnt) 0%nat 0 w0 in
    (o, w1, ev :: tr).

End Program.

(** *** A small file system to run writev on

    A file has a position and the room that is left on its device.
    [write] takes at most [chunk] bytes per call and fails with ENOSPC
    when no room is left.  [lseek] moves the position and, as a call that
    succeeds may, leaves errno changed: it clears it.  On a pipe [lseek]
    fails with ESPIPE. *)
Record disk : Type := mk_disk {
  position : Z;
  room : Z
}.

Definition ENOSPC : Z := 28.
Definition ESPIPE : Z := 29.

Definition disk_lseek (fildes offset : Z) (wh : whence) (w : world disk)
    : Z * world disk :=
  let p := match wh with
           | SEEK_SET => offset
           | SEEK_CUR => position (fs w) + offset
           end in
  (p, {| errno := 0; fs := {| position := p; room := room (fs w) |} |}).

Definition disk_write (chunk : Z) (fildes buffer nbytes : Z) (w : world disk)
    : Z * world disk :=
  if room (fs w) <=? 0 then (-1, set_errno ENOSPC w)
  else
    let r := Z.min nbytes (Z.min chunk (room (fs w))) in
    (r, {| errno := errno w;
           fs := {| position := position (fs w) + r;
                    room := room (fs w) - r |} |}).

(** A file on a device with limited room, written [chunk] bytes at a time. *)
Definition disk_sys (chunk : Z) : syscalls disk :=
  {| lseek := disk_lseek; write := disk_write chunk |}.

(** A file on a device that never fills up, written two bytes at a time. *)
Definition roomy_sys : syscalls disk :=
  {| lseek := disk_lseek;
     write := fun fildes buffer nbytes w =>
       let r := Z.min nbytes 2 in
       (r, {| errno := errno w;
              fs := {| position := position (fs w) + r;
                       room := room (fs w) |} |}) |}.

(** A pipe: it takes every byte at once and cannot seek. *)
Definition pipe_sys : syscalls disk :=
  {| lseek := fun _ _ _ w => (-1, set_errno ESPIPE w);
     write := fun _ _ nbytes w => (nbytes, w) |}.

(** A file with limited room whose position can be read but not set:
    lseek(SEEK_SET) fails with EINVAL. *)
Definition EINVAL : Z := 22.

Definition stuck_sys (chunk : Z) : syscalls disk :=
  {| lseek := fun fildes offset wh w =>
       match wh with
       | SEEK_CUR => disk_lseek fildes offset SEEK_CUR w
       | SEEK_SET => (-1, set_errno EINVAL w)
       end;
     write := disk_write chunk |}.


End Writev.

(** ** The words of the specification of task_delete *)
Module TaskDeleteTerms.
Import TaskDelete.

(** Step 1 of the protocol: pid 0 names the calling task. *)
Definition resolve (pid : Z) (k : kernel) : Z :=
  if pid =? 0 then rtcb_pid k else pid.

(** cancelability = Disabled *)
Definition noncancelable (cfg : config) (t : tcb_s) : bool :=
  flag_set (flags t) (TCB_FLAG_NONCANCELABLE cfg).
(** cancelType = Deferred (otherwise Asynchronous) *)
Definition deferred (cfg : config) (t : tcb_s) : bool :=
  flag_set (flags t) (TCB_FLAG_CANCEL_DEFERRED cfg).
(** cancelPending *)
Definition cancel_pending (cfg : config) (t : tcb_s) : bool :=
  flag_set (flags t) (TCB_FLAG_CANCEL_PENDING cfg).
(** kind = LightweightThread *)
Definition is_pthread (cfg : config) (t : tcb_s) : bool :=
  Z.land (flags t) (TCB_FLAG_TTYPE_MASK cfg) =? TCB_FLAG_TTYPE_PTHREAD cfg.

(** Task [pid] is registered in [k] and has a cancellation pending. *)
Definition pending_in (cfg : config) (k : kernel) (pid : Z) : Prop :=
  exists t, g_pidhash k !! pid = Some t /\ cancel_pending cfg t = true.

(** Task [pid] is registered in [k]. *)
Definition alive (k : kernel) (pid : Z) : Prop := is_Some (g_pidhash k !! pid).

(** The record of a task after [dtcb->flags |= TCB_FLAG_CANCEL_PENDING]. *)
Definition mark_pending (cfg : config) (t : tcb_s) : tcb_s :=
  set_flags (Z.lor (flags t) (TCB_FLAG_CANCEL_PENDING cfg)) t.

(** Number of calls of each kind in a trace. *)
Definition is_lock (e : event) : bool :=
  match e with EvLock => true | _ => false end.
Definition is_unlock (e : event) : bool :=
  match e with EvUnlock => true | _ => false end.
Definition is_notify (e : event) : bool :=
  match e with EvNotify _ => true | _ => false end.
Definition is_terminate (e : event) : bool :=
  match e with EvTerminate _ _ => true | _ => false end.
Definition is_exit (e : event) : bool :=
  match e with EvExit _ => true | _ => false end.
Definition calls (p : event -> bool) (tr : list event) : nat :=
  length (List.filter p tr).

(** The scheduler lock is not held (nesting [depth] is 0) at any exit() or
    task_terminate() call of the trace. *)
Fixpoint unlocked_at_calls (depth : Z) (tr : list event) : bool :=
  match tr with
  | [] => true
  | EvLock :: tr' => unlocked_at_calls (depth + 1) tr'
  | EvUnlock :: tr' => unlocked_at_calls (depth - 1) tr'
  | EvNotify _ :: tr' => unlocked_at_calls depth tr'
  | EvTerminate _ _ :: tr' => (depth =? 0) && unlocked_at_calls depth tr'
  | EvExit _ :: tr' => (depth =? 0) && unlocked_at_calls depth tr'
  end.

(** Every sched_unlock() of the trace releases an earlier sched_lock(), and
    at the end of the trace nothing is held. *)
Fixpoint well_bracketed (depth : Z) (tr : list event) : bool :=
  match tr with
  | [] => depth =? 0
  | EvLock :: tr' => well_bracketed (depth + 1) tr'
  | EvUnlock :: tr' => (0 <? depth) && well_bracketed (depth - 1) tr'
  | _ :: tr' => well_bracketed depth tr'
  end.

(** What the protocol relies on from the notifier: it wakes the target
    and leaves every task's flags, and the identity of the running task,
    as they are. *)
Definition notifier_keeps_flags (env : collaborators) : Prop :=
  forall p k,
    rtcb_pid (notify_cancellation_fx env p k) = rtcb_pid k /\
    forall q, flags <$> (g_pidhash (notify_cancellation_fx env p k) !! q)
              = flags <$> (g_pidhash k !! q).

(** task_terminate either leaves a task's pending flag alone or removes the
    task. *)
Definition terminator_keeps_pending (cfg : config) (env : collaborators) : Prop :=
  forall p b k q,
    pending_in cfg k q ->
    pending_in cfg (task_terminate_fx env p b k).2 q \/
    ~ alive (task_terminate_fx env p b k).2 q.

(** The pending bit is a bit of its own: it is not empty and it overlaps
    neither the thread-type field nor the two cancellation-mode bits. *)
Definition pending_bit_apart (cfg : config) : Prop :=
  TCB_FLAG_CANCEL_PENDING cfg <> 0 /\
  Z.land (TCB_FLAG_CANCEL_PENDING cfg) (TCB_FLAG_TTYPE_MASK cfg) = 0 /\
  Z.land (TCB_FLAG_CANCEL_PENDING cfg) (TCB_FLAG_NONCANCELABLE cfg) = 0 /\
  Z.land (TCB_FLAG_CANCEL_PENDING cfg) (TCB_FLAG_CANCEL_DEFERRED cfg) = 0.

(** The DEBUGASSERT of line 153 lets the call pass. *)
Definition guard_ok (cfg : config) (t : tcb_s) : bool :=
  negb (CONFIG_DEBUG cfg && is_pthread cfg t).

(** The state in which the notifier runs: lock held, pending bit set. *)
Definition at_notify (cfg : config) (pid : Z) (k : kernel) (t : tcb_s) : kernel :=
  with_pidhash (<[resolve pid k := mark_pending cfg t]> (g_pidhash k))
    (with_lockcount (lockcount k + 1) k).

(** The state in which task_delete returns after it has notified. *)
Definition after_notify (cfg : config) (env : collaborators)
    (pid : Z) (k : kernel) (t : tcb_s) : kernel :=
  let k2 := notify_cancellation_fx env (resolve pid k) (at_notify cfg pid k t) in
  with_lockcount (lockcount k2 - 1) k2.

(** The six paths of a call, each with its outcome and its trace. *)
Inductive path (pid : Z) (k : kernel) : outcome Z -> kernel -> list event -> Prop :=
| PathNotFound k' :
    g_pidhash k !! resolve pid k = None ->
    lockcount k' = lockcount k ->
    path pid k (Returned ERROR) k' []
| PathAssert k' :
    alive k (resolve pid k) ->
    lockcount k' = lockcount k ->
    path pid k AssertFailed k' []
| PathPending k' :
    alive k (resolve pid k) ->
    lockcount k' = lockcount k ->
    path pid k (Returned OK) k' [EvLock; EvUnlock]
| PathNotified k' :
    alive k (resolve pid k) ->
    path pid k (Returned OK) k' [EvLock; EvNotify (resolve pid k); EvUnlock]
| PathExit k' :
    alive k (resolve pid k) ->
    lockcount k' = lockcount k ->
    path pid k (Exited EXIT_SUCCESS) k' [EvLock; EvUnlock; EvExit EXIT_SUCCESS]
| PathTerminate v k' :
    alive k (resolve pid k) ->
    v = OK \/ v = ERROR ->
    path pid k (Returned v) k' [EvLock; EvUnlock; EvTerminate (resolve pid k) false].

(** *** Test doubles for the collaborators

    [quiet] tears the target down and reports success; [stubborn] refuses
    with -EINVAL and changes nothing.  Both notifiers leave the modelled
    part of the kernel as it is: waking a task changes its scheduling
    state, which is not part of [kernel]. *)
Definition quiet : collaborators :=
  {| notify_cancellation_fx := fun _ k => k;
     task_terminate_fx := fun p _ k => (OK, with_pidhash (delete p (g_pidhash k)) k) |}.

Definition stubborn : collaborators :=
  {| notify_cancellation_fx := fun _ k => k;
     task_terminate_fx := fun _ _ k => (-22, k) |}.

(** A kernel with four tasks: 5 runs (asynchronous, cancelable), 6 has
    deferred cancellation and is not blocked, 7 has deferred cancellation
    and sits inside two cancellation points, 9 is non-cancelable. *)
Definition four_tasks : kernel :=
  {| rtcb_pid := 5;
     g_pidhash := <[5 := mk_tcb 0 0]> (<[6 := mk_tcb 8 0]>
                  (<[7 := mk_tcb 8 2]> (<[9 := mk_tcb 4 0]> ∅)));
     lockcount := 0;
     errno := 0 |}.

(** The same kernel while task [pid] runs. *)
Definition four_tasks_run (pid : Z) : kernel :=
  {| rtcb_pid := pid; g_pidhash := g_pidhash four_tasks;
     lockcount := 0; errno := 0 |}.

(** What task_delete expects of a task_terminate that reports success: the
    task is gone from the table, and the running task is still the same. *)
Definition terminator_removes (env : collaborators) : Prop :=
  forall p b k,
    0 <= (task_terminate_fx env p b k).1 ->
    g_pidhash (task_terminate_fx env p b k).2 !! p = None /\
    rtcb_pid (task_terminate_fx env p b k).2 = rtcb_pid k.

(** The calls of a trace keep to the rules of task_delete for target
    [target] while task [running] runs: it notifies and terminates only
    the target, terminates only with [nonblocking = false] and never the
    running task, exits only as the running task and with EXIT_SUCCESS,
    and notifies only in a build with cancellation points. *)
Definition call_allowed (cfg : config) (target running : Z) (e : event) : Prop :=
  match e with
  | EvLock | EvUnlock => True
  | EvNotify p => p = target /\ CONFIG_CANCELLATION_POINTS cfg = true
  | EvTerminate p nonblocking =>
      p = target /\ p <> running /\ nonblocking = false
  | EvExit status => target = running /\ status = EXIT_SUCCESS
  end.

End TaskDeleteTerms.

(** ** The words of the specification of writev *)
Module WritevTerms.
Import Writev.

Definition SSIZE_MAX (bits : Z) : Z := 2 ^ (bits - 1) - 1.

(** The addresses of the [len] bytes of the area that starts at [base]. *)
Definition addresses (base len : Z) : list Z :=
  map (fun i => base + Z.of_nat i) (seq 0 (Z.to_nat len)).

(** The bytes a vector describes, area after area. *)
Definition gathered (vec : list iovec) : list Z :=
  flat_map (fun v => addresses (iov_base v) (iov_len v)) vec.

(** The bytes the write calls of a trace have taken, call after call. *)
Definition transferred (tr : list event) : list Z :=
  flat_map (fun e => match e with
                     | EvWrite _ buffer _ result _ => addresses buffer result
                     | EvLseek _ _ _ _ => []
                     end) tr.

Fixpoint total_len (vec : list iovec) : Z :=
  match vec with
  | [] => 0
  | v :: vec' => iov_len v + total_len vec'
  end.

Definition is_write (e : event) : bool :=
  match e with EvWrite _ _ _ _ _ => true | EvLseek _ _ _ _ => false end.

Definition is_failed_write (e : event) : bool :=
  match e with EvWrite _ _ _ r _ => r <? 0 | EvLseek _ _ _ _ => false end.

(** Some write call of the trace has failed. *)
Definition write_failed (tr : list event) : bool := existsb is_failed_write tr.

(** What the theorems ask of one entry of the vector: its length is a
    size_t, and the fuel covers it. *)
Definition entry_ok (bits : Z) (fuel : nat) (v : iovec) : Prop :=
  0 <= iov_len v < 2 ^ bits /\ (Z.to_nat (iov_len v) <= fuel)%nat.

(** The end of a run that left through lines 134-147: after writes that
    did not fail, one write fails and leaves world [w1]; the position is
    set back to [pos] and errno is put back to what the failed write left. *)
Definition restored {F} (sys : syscalls F) (fildes pos : Z)
    (tr : list event) (w' : world F) : Prop :=
  exists pre buffer n r w0 w1,
    write sys fildes buffer n w0 = (r, w1) /\
    tr = pre ++ [EvWrite fildes buffer n r (errno w1);
                 EvLseek fildes pos SEEK_SET (lseek sys fildes pos SEEK_SET w1).1] /\
    r < 0 /\
    write_failed pre = false /\
    w' = set_errno (errno w1) (lseek sys fildes pos SEEK_SET w1).2.

(** A write call has succeeded: it has taken at least one and at most the
    bytes it was offered. *)
Definition write_took (e : event) : bool :=
  match e with
  | EvWrite _ _ nbytes r _ => (0 <? r) && (r <=? nbytes)
  | EvLseek _ _ _ _ => true
  end.

(** Every write call of the trace has succeeded. *)
Definition writes_succeeded (tr : list event) : bool := forallb write_took tr.

(** A write call has taken all the bytes it was offered. *)
Definition write_took_all (e : event) : bool :=
  match e with
  | EvWrite _ _ nbytes r _ => r =? nbytes
  | EvLseek _ _ _ _ => true
  end.

(** Every write call of the trace has taken all it was offered. *)
Definition writes_whole (tr : list event) : bool := forallb write_took_all tr.

(** The buffer and the count of each write call of a trace. *)
Definition write_calls (tr : list event) : list (Z * Z) :=
  flat_map (fun e => match e with
                     | EvWrite _ buffer nbytes _ _ => [(buffer, nbytes)]
                     | EvLseek _ _ _ _ => []
                     end) tr.

(** The areas of a vector that are not empty. *)
Definition nonempty (vec : list iovec) : list iovec :=
  List.filter (fun v => 0 <? iov_len v) vec.

(** A call is made on descriptor [fildes], and a write offers at least one
    byte. *)
Definition call_on (fildes : Z) (e : event) : Prop :=
  match e with
  | EvLseek fd _ _ _ => fd = fildes
  | EvWrite fd _ nbytes _ _ => fd = fildes /\ 0 < nbytes
  end.

(** A write call offers the tail of one of the first [count] areas of the
    vector: it starts inside the area and ends where the area ends. *)
Definition within_areas (iov : list iovec) (count : nat) (e : event) : Prop :=
  match e with
  | EvLseek _ _ _ _ => True
  | EvWrite _ buffer nbytes _ _ =>
      exists j v,
        (j < count)%nat /\ iov !! j = Some v /\
        iov_base v <= buffer /\ 0 < nbytes /\
        buffer + nbytes = iov_base v + iov_len v
  end.

End WritevTerms.

(** * Proofs *)

(** ** Machine integers *)

Lemma swrap_id bits z :
  0 < bits -> - 2 ^ (bits - 1) <= z < 2 ^ (bits - 1) -> swrap bits z = z.
Proof.
  intros Hb Hz. unfold swrap.
  assert (E : 2 ^ bits = 2 * 2 ^ (bits - 1)).
  { replace bits with (Z.succ (bits - 1)) at 1 by lia.
    rewrite Z.pow_succ_r by lia. reflexivity. }
  rewrite Z.mod_small by lia. lia.
Qed.

Lemma uwrap_id bits z : 0 <= z < 2 ^ bits -> uwrap bits z = z.
Proof. intros Hz. unfold uwrap. apply Z.mod_small. exact Hz. Qed.

Lemma int_wrap_id z : INT_MIN <= z <= INT_MAX -> int_wrap z = z.
Proof.
  unfold INT_MIN, INT_MAX, int_wrap. intros Hz.
  apply swrap_id; unfold INT_BITS in *; lia.
Qed.

(** ** Properties of task_delete *)
Module TaskDeleteFacts.
Import TaskDelete TaskDeleteTerms.
Local Open Scope kernel_scope.

(** *** Bit-level facts *)

Lemma land_lor_same a b : Z.land (Z.lor a b) b = b.
Proof.
  apply Z.bits_inj'. intros n _.
  rewrite Z.land_spec, Z.lor_spec.
  destruct (Z.testbit a n), (Z.testbit b n); reflexivity.
Qed.

Lemma land_lor_apart a b m : Z.land b m = 0 -> Z.land (Z.lor a b) m = Z.land a m.
Proof.
  intros H. rewrite Z.land_lor_distr_l, H. apply Z.lor_0_r.
Qed.

Lemma flag_set_lor_same f b : b <> 0 -> flag_set (Z.lor f b) b = true.
Proof.
  intros Hb. unfold flag_set. rewrite land_lor_same.
  apply negb_true_iff, Z.eqb_neq, Hb.
Qed.

Lemma flag_set_lor_apart f b m :
  Z.land b m = 0 -> flag_set (Z.lor f b) m = flag_set f m.
Proof. intros H. unfold flag_set. by rewrite land_lor_apart. Qed.

(** Or-ing bits into the flags never clears a flag. *)
Lemma flag_set_lor_mono f b m :
  flag_set f m = true -> flag_set (Z.lor f b) m = true.
Proof.
  unfold flag_set. rewrite !negb_true_iff, !Z.eqb_neq. intros H E. apply H.
  apply Z.bits_inj'. intros n Hn.
  assert (T := f_equal (fun z => Z.testbit z n) E). simpl in T.
  rewrite Z.land_spec, Z.lor_spec, Z.bits_0 in T.
  rewrite Z.land_spec, Z.bits_0.
  destruct (Z.testbit f n), (Z.testbit m n); simpl in *; congruence.
Qed.

Lemma mark_pending_pending cfg t :
  TCB_FLAG_CANCEL_PENDING cfg <> 0 -> cancel_pending cfg (mark_pending cfg t) = true.
Proof. intros H. unfold cancel_pending, mark_pending. simpl. by apply flag_set_lor_same. Qed.

(** *** Records *)

Lemma lock_unlock_id k h :
  with_lockcount (lockcount (with_pidhash h (with_lockcount (lockcount k + 1) k)) - 1)
    (with_pidhash h (with_lockcount (lockcount k + 1) k)) = with_pidhash h k.
Proof.
  destruct k as [r g l e]. unfold with_lockcount, with_pidhash. simpl.
  f_equal. lia.
Qed.

Lemma lock_unlock_plain k :
  with_lockcount (lockcount k + 1 - 1) (with_lockcount (lockcount k + 1) k) = k.
Proof.
  destruct k as [r g l e]. unfold with_lockcount. simpl. f_equal. lia.
Qed.

Lemma alter_mark cfg (h : gmap Z tcb_s) pid t :
  h !! pid = Some t ->
  alter (fun t => set_flags (Z.lor (flags t) (TCB_FLAG_CANCEL_PENDING cfg)) t) pid h
  = <[pid := mark_pending cfg t]> h.
Proof.
  intros H. apply map_eq. intros q.
  destruct (decide (pid = q)) as [->|Hne].
  - rewrite lookup_alter_eq, lookup_insert_eq, H. reflexivity.
  - rewrite lookup_alter_ne, lookup_insert_ne by done. reflexivity.
Qed.

(** *** The paths of task_delete, one lemma each *)

Ltac run_delete :=
  unfold task_delete, resolve, sched_gettcb, sched_lock, sched_unlock,
    set_errno, notify_cancellation, task_terminate, TaskDelete.exit,
    DEBUGASSERT, or_flags, bind, get, modify, emit, ret,
    guard_ok, is_pthread, noncancelable, deferred in *;
  simpl in *.

Section Paths.

Context (cfg : config) (env : collaborators).
Implicit Types (k : kernel) (t : tcb_s) (pid : Z).

Lemma delete_not_found pid k :
  g_pidhash k !! resolve pid k = None ->
  task_delete cfg env pid k = (Returned ERROR, with_errno (ESRCH cfg) k, []).
Proof. intros H. run_delete. rewrite H. reflexivity. Qed.

Lemma delete_assert_fails pid k t :
  g_pidhash k !! resolve pid k = Some t ->
  guard_ok cfg t = false ->
  task_delete cfg env pid k = (AssertFailed, k, []).
Proof.
  intros H G. run_delete. rewrite H. simpl.
  rewrite negb_involutive. apply negb_false_iff in G. rewrite G. reflexivity.
Qed.

Lemma delete_disabled pid k t :
  g_pidhash k !! resolve pid k = Some t ->
  guard_ok cfg t = true ->
  noncancelable cfg t = true ->
  task_delete cfg env pid k
  = (Returned OK,
     with_pidhash (<[resolve pid k := mark_pending cfg t]> (g_pidhash k)) k,
     [EvLock; EvUnlock]).
Proof.
  intros H G N. run_delete. rewrite H. simpl.
  rewrite negb_involutive. apply negb_true_iff in G. rewrite G, N. simpl.
  rewrite (alter_mark cfg _ _ _ H).
  pose proof (lock_unlock_id k
    (<[(if pid =? 0 then rtcb_pid k else pid) := mark_pending cfg t]> (g_pidhash k))) as E.
  unfold with_lockcount, with_pidhash in *. simpl in *. rewrite E. reflexivity.
Qed.

Lemma delete_deferred_idle pid k t :
  g_pidhash k !! resolve pid k = Some t ->
  guard_ok cfg t = true ->
  noncancelable cfg t = false ->
  CONFIG_CANCELLATION_POINTS cfg = true ->
  deferred cfg t = true ->
  (0 <? cpcount t) = false ->
  task_delete cfg env pid k
  = (Returned OK,
     with_pidhash (<[resolve pid k := mark_pending cfg t]> (g_pidhash k)) k,
     [EvLock; EvUnlock]).
Proof.
  intros H G N C D P. run_delete. rewrite H. simpl.
  rewrite negb_involutive. apply negb_true_iff in G. rewrite G, N, C, D, P. simpl.
  rewrite (alter_mark cfg _ _ _ H).
  pose proof (lock_unlock_id k
    (<[(if pid =? 0 then rtcb_pid k else pid) := mark_pending cfg t]> (g_pidhash k))) as E.
  unfold with_lockcount, with_pidhash in *. simpl in *. rewrite E. reflexivity.
Qed.

Lemma delete_deferred_blocked pid k t :
  g_pidhash k !! resolve pid k = Some t ->
  guard_ok cfg t = true ->
  noncancelable cfg t = false ->
  CONFIG_CANCELLATION_POINTS cfg = true ->
  deferred cfg t = true ->
  (0 <? cpcount t) = true ->
  task_delete cfg env pid k
  = (Returned OK, after_notify cfg env pid k t,
     [EvLock; EvNotify (resolve pid k); EvUnlock]).
Proof.
  intros H G N C D P. unfold after_notify, at_notify. run_delete. rewrite H. simpl.
  rewrite negb_involutive. apply negb_true_iff in G. rewrite G, N, C, D, P. simpl.
  rewrite (alter_mark cfg _ _ _ H). reflexivity.
Qed.

Lemma delete_self_exit pid k t :
  g_pidhash k !! resolve pid k = Some t ->
  guard_ok cfg t = true ->
  noncancelable cfg t = false ->
  CONFIG_CANCELLATION_POINTS cfg && deferred cfg t = false ->
  resolve pid k = rtcb_pid k ->
  task_delete cfg env pid k
  = (Exited EXIT_SUCCESS, k, [EvLock; EvUnlock; EvExit EXIT_SUCCESS]).
Proof.
  intros H G N D S. run_delete. rewrite H. simpl.
  rewrite negb_involutive. apply negb_true_iff in G. rewrite G, N, D. simpl.
  rewrite S, Z.eqb_refl. simpl.
  rewrite lock_unlock_plain. reflexivity.
Qed.

Lemma delete_terminate pid k t :
  g_pidhash k !! resolve pid k = Some t ->
  guard_ok cfg t = true ->
  noncancelable cfg t = false ->
  CONFIG_CANCELLATION_POINTS cfg && deferred cfg t = false ->
  resolve pid k <> rtcb_pid k ->
  task_delete cfg env pid k
  = (let '(r, k') := task_terminate_fx env (resolve pid k) false k in
     if r <? 0
     then (Returned ERROR, with_errno (int_wrap (- r)) k',
           [EvLock; EvUnlock; EvTerminate (resolve pid k) false])
     else (Returned OK, k',
           [EvLock; EvUnlock; EvTerminate (resolve pid k) false])).
Proof.
  intros H G N D S. run_delete. rewrite H. simpl.
  rewrite negb_involutive. apply negb_true_iff in G. rewrite G, N, D. simpl.
  apply Z.eqb_neq in S. rewrite S. simpl.
  rewrite lock_unlock_plain.
  destruct (task_terminate_fx env _ false k) as [r k'].
  destruct (r <? 0); reflexivity.
Qed.

End Paths.

(** *** Every call follows one of the six paths *)

Lemma delete_follows_path cfg env pid k :
  exists o k' tr, task_delete cfg env pid k = (o, k', tr) /\ path pid k o k' tr.
Proof.
  destruct (g_pidhash k !! resolve pid k) as [t|] eqn:H.
  2:{ eexists _, _, _. split; [by apply delete_not_found|]. by constructor. }
  assert (A : alive k (resolve pid k)) by (by exists t).
  destruct (guard_ok cfg t) eqn:G.
  2:{ eexists _, _, _. split; [by eapply delete_assert_fails|]. by constructor. }
  destruct (noncancelable cfg t) eqn:N.
  { eexists _, _, _. split; [by eapply delete_disabled|]. by constructor. }
  destruct (CONFIG_CANCELLATION_POINTS cfg && deferred cfg t) eqn:D.
  { apply andb_true_iff in D as [C D].
    destruct (0 <? cpcount t) eqn:P.
    - eexists _, _, _. split; [by eapply delete_deferred_blocked|]. by constructor.
    - eexists _, _, _. split; [by eapply delete_deferred_idle|]. by constructor. }
  destruct (decide (resolve pid k = rtcb_pid k)) as [S|S].
  { eexists _, _, _. split; [by eapply delete_self_exit|]. by constructor. }
  rewrite (delete_terminate cfg env pid k t H G N D S).
  destruct (task_terminate_fx env (resolve pid k) false k) as [r k'].
  destruct (r <? 0); eexists _, _, _; (split; [reflexivity|]); constructor; auto.
Qed.

(** *** Runs on the kernel with four tasks *)

Example run_delete_blocked_deferred :
  task_delete (tizenrt true true) quiet 7 four_tasks
  = (Returned OK,
     with_pidhash (<[7 := mk_tcb 24 2]> (g_pidhash four_tasks)) four_tasks,
     [EvLock; EvNotify 7; EvUnlock]).
Proof. reflexivity. Qed.

Example run_delete_noncancelable :
  task_delete (tizenrt true true) quiet 9 four_tasks
  = (Returned OK,
     with_pidhash (<[9 := mk_tcb 20 0]> (g_pidhash four_tasks)) four_tasks,
     [EvLock; EvUnlock]).
Proof. reflexivity. Qed.

Example run_delete_other_async :
  task_delete (tizenrt true true) quiet 5 (four_tasks_run 7)
  = (Returned OK,
     with_pidhash (delete 5 (g_pidhash four_tasks)) (four_tasks_run 7),
     [EvLock; EvUnlock; EvTerminate 5 false]).
Proof. reflexivity. Qed.

Example run_delete_pthread_asserts :
  task_delete (tizenrt true true) quiet 3
    (with_pidhash (<[3 := mk_tcb 1 0]> (g_pidhash four_tasks)) four_tasks)
  = (AssertFailed,
     with_pidhash (<[3 := mk_tcb 1 0]> (g_pidhash four_tasks)) four_tasks, []).
Proof. reflexivity. Qed.

(** *** The test doubles keep their contracts *)

Lemma quiet_keeps_flags : notifier_keeps_flags quiet.
Proof. intros p k. split; [reflexivity | intros q; reflexivity]. Qed.

Lemma stubborn_keeps_flags : notifier_keeps_flags stubborn.
Proof. intros p k. split; [reflexivity | intros q; reflexivity]. Qed.

Lemma tizenrt_pending_apart cp dbg : pending_bit_apart (tizenrt cp dbg).
Proof. repeat split; simpl; discriminate. Qed.


(** *** State after the pending bit has been set *)

Lemma guard_ok_task cfg t : is_pthread cfg t = false -> guard_ok cfg t = true.
Proof. intros H. unfold guard_ok. rewrite H, andb_false_r. reflexivity. Qed.

Lemma pending_of_flags cfg t t' :
  flags t' = flags t -> cancel_pending cfg t = true -> cancel_pending cfg t' = true.
Proof. unfold cancel_pending. by intros ->. Qed.

Lemma pending_after_mark cfg k p t :
  TCB_FLAG_CANCEL_PENDING cfg <> 0 ->
  pending_in cfg (with_pidhash (<[p := mark_pending cfg t]> (g_pidhash k)) k) p.
Proof.
  intros HP. exists (mark_pending cfg t). simpl.
  split; [apply lookup_insert_eq | by apply mark_pending_pending].
Qed.

Lemma lookup_after_notify cfg env pid k t :
  notifier_keeps_flags env ->
  exists t', g_pidhash (after_notify cfg env pid k t) !! resolve pid k = Some t'
             /\ flags t' = flags (mark_pending cfg t).
Proof.
  intros HN. unfold after_notify. simpl.
  destruct (HN (resolve pid k) (at_notify cfg pid k t)) as [_ HF].
  specialize (HF (resolve pid k)).
  unfold at_notify in HF at 2. simpl in HF. rewrite lookup_insert_eq in HF.
  destruct (g_pidhash _ !! resolve pid k) as [t'|]; simpl in HF; [|discriminate].
  exists t'. split; [reflexivity | congruence].
Qed.

Lemma pending_after_notify cfg env pid k t :
  TCB_FLAG_CANCEL_PENDING cfg <> 0 ->
  notifier_keeps_flags env ->
  pending_in cfg (after_notify cfg env pid k t) (resolve pid k).
Proof.
  intros HP HN. destruct (lookup_after_notify cfg env pid k t HN) as (t' & L & F).
  exists t'. split; [exact L|].
  eapply pending_of_flags; [exact F | by apply mark_pending_pending].
Qed.

Lemma resolve_self pid k : pid = 0 \/ pid = rtcb_pid k -> resolve pid k = rtcb_pid k.
Proof.
  unfold resolve. intros [->| ->]; [reflexivity|].
  destruct (rtcb_pid k =? 0); reflexivity.
Qed.

(** *** The two paths that defer the deletion *)

Lemma delete_pending_paths cfg env pid k t :
  notifier_keeps_flags env ->
  g_pidhash k !! resolve pid k = Some t ->
  guard_ok cfg t = true ->
  noncancelable cfg t = true \/
    (CONFIG_CANCELLATION_POINTS cfg = true /\ deferred cfg t = true) ->
  exists k' tr t',
    task_delete cfg env pid k = (Returned OK, k', tr) /\
    g_pidhash k' !! resolve pid k = Some t' /\
    flags t' = flags (mark_pending cfg t) /\
    rtcb_pid k' = rtcb_pid k /\
    calls is_exit tr = 0%nat /\ calls is_terminate tr = 0%nat.
Proof.
  intros HN H T B.
  assert (Plain : (noncancelable cfg t = true \/
                   (noncancelable cfg t = false /\ CONFIG_CANCELLATION_POINTS cfg = true /\
                    deferred cfg t = true /\ (0 <? cpcount t) = false)) ->
     exists k' tr t',
       task_delete cfg env pid k = (Returned OK, k', tr) /\
       g_pidhash k' !! resolve pid k = Some t' /\
       flags t' = flags (mark_pending cfg t) /\
       rtcb_pid k' = rtcb_pid k /\
       calls is_exit tr = 0%nat /\ calls is_terminate tr = 0%nat).
  { intros Hc. eexists _, [EvLock; EvUnlock], (mark_pending cfg t). split.
    - destruct Hc as [N|(N & C & D & P)];
        [by apply delete_disabled | by apply delete_deferred_idle].
    - simpl. rewrite lookup_insert_eq. auto. }
  destruct (noncancelable cfg t) eqn:N; [apply Plain; by left|].
  destruct B as [B|[C D]]; [discriminate|].
  destruct (0 <? cpcount t) eqn:P; [|apply Plain; right; auto].
  destruct (lookup_after_notify cfg env pid k t HN) as (t' & L & F).
  exists (after_notify cfg env pid k t),
         [EvLock; EvNotify (resolve pid k); EvUnlock], t'.
  split; [by apply delete_deferred_blocked|].
  repeat split; auto.
  unfold after_notify. simpl.
  by destruct (HN (resolve pid k) (at_notify cfg pid k t)) as [-> _].
Qed.

(** *** task_delete clears no pending flag *)

Lemma pending_in_hash cfg k1 k2 q :
  g_pidhash k1 = g_pidhash k2 -> pending_in cfg k1 q -> pending_in cfg k2 q.
Proof. unfold pending_in. by intros ->. Qed.

Lemma pending_in_mark cfg k p t q :
  g_pidhash k !! p = Some t ->
  pending_in cfg k q ->
  pending_in cfg (with_pidhash (<[p := mark_pending cfg t]> (g_pidhash k)) k) q.
Proof.
  intros H (u & L & P). unfold pending_in. simpl.
  destruct (decide (p = q)) as [->|Hne].
  - exists (mark_pending cfg t). rewrite lookup_insert_eq. split; [done|].
    assert (u = t) as -> by congruence.
    unfold cancel_pending, mark_pending in *. simpl. by apply flag_set_lor_mono.
  - exists u. by rewrite lookup_insert_ne.
Qed.

Lemma pending_in_notify cfg env p k q :
  notifier_keeps_flags env ->
  pending_in cfg k q ->
  pending_in cfg (notify_cancellation_fx env p k) q.
Proof.
  intros HN (u & L & P). destruct (HN p k) as [_ HF]. specialize (HF q).
  rewrite L in HF. simpl in HF.
  destruct (g_pidhash (notify_cancellation_fx env p k) !! q) as [u'|] eqn:L';
    simpl in HF; [|discriminate].
  exists u'. split; [done|]. eapply pending_of_flags; [|exact P]. congruence.
Qed.

Lemma delete_keeps_pending cfg env pid k q :
  notifier_keeps_flags env ->
  terminator_keeps_pending cfg env ->
  pending_in cfg k q ->
  pending_in cfg (task_delete cfg env pid k).1.2 q \/
  ~ alive (task_delete cfg env pid k).1.2 q.
Proof.
  intros HN HT HP.
  destruct (g_pidhash k !! resolve pid k) as [t|] eqn:H.
  2:{ rewrite delete_not_found by done. left. simpl.
      eapply pending_in_hash; [|exact HP]. reflexivity. }
  destruct (guard_ok cfg t) eqn:G.
  2:{ rewrite (delete_assert_fails cfg env pid k t) by done. by left. }
  destruct (noncancelable cfg t) eqn:N.
  { rewrite (delete_disabled cfg env pid k t) by done. left. simpl.
    by apply pending_in_mark. }
  destruct (CONFIG_CANCELLATION_POINTS cfg && deferred cfg t) eqn:D.
  { apply andb_true_iff in D as [C D].
    destruct (0 <? cpcount t) eqn:P.
    - rewrite (delete_deferred_blocked cfg env pid k t) by done. left. simpl.
      unfold after_notify.
      eapply pending_in_hash; [reflexivity|].
      apply pending_in_notify; [done|]. unfold at_notify.
      eapply pending_in_hash; [|by apply (pending_in_mark cfg k _ t q H HP)].
      reflexivity.
    - rewrite (delete_deferred_idle cfg env pid k t) by done. left. simpl.
      by apply pending_in_mark. }
  destruct (decide (resolve pid k = rtcb_pid k)) as [S|S].
  { rewrite (delete_self_exit cfg env pid k t) by done. by left. }
  rewrite (delete_terminate cfg env pid k t H G N D S).
  specialize (HT (resolve pid k) false k q HP).
  destruct (task_terminate_fx env (resolve pid k) false k) as [r k'].
  simpl in HT.
  destruct (r <? 0); simpl; [|exact HT].
  destruct HT as [HT|HT]; [left|right].
  - eapply pending_in_hash; [|exact HT]. reflexivity.
  - exact HT.
Qed.

(** Setting the pending bit changes neither the kind nor the cancellation
    mode of a task. *)
Lemma mark_pending_mode cfg t t' :
  pending_bit_apart cfg ->
  flags t' = flags (mark_pending cfg t) ->
  is_pthread cfg t' = is_pthread cfg t /\
  noncancelable cfg t' = noncancelable cfg t /\
  deferred cfg t' = deferred cfg t.
Proof.
  intros (_ & A1 & A2 & A3) F.
  unfold is_pthread, noncancelable, deferred. rewrite F. simpl.
  rewrite land_lor_apart by done.
  rewrite !flag_set_lor_apart by done. auto.
Qed.

Lemma mark_pending_twice cfg t t' :
  flags t' = flags (mark_pending cfg t) ->
  flags (mark_pending cfg t') = flags t'.
Proof.
  intros F. simpl. rewrite F. simpl.
  rewrite <- Z.lor_assoc, Z.lor_diag. reflexivity.
Qed.

Lemma stubborn_keeps_pending cfg : terminator_keeps_pending cfg stubborn.
Proof. intros p b k q H. by left. Qed.

Lemma quiet_keeps_pending cfg : terminator_keeps_pending cfg quiet.
Proof.
  intros p b k q (u & L & P). simpl.
  destruct (decide (p = q)) as [->|Hne].
  - right. intros [x Hx]. simpl in Hx. by rewrite lookup_delete_eq in Hx.
  - left. exists u. simpl. by rewrite lookup_delete_ne.
Qed.

End TaskDeleteFacts.

(** ** The specification of task_delete, claim by claim *)
Module TaskDeleteSpec.
Import TaskDelete TaskDeleteTerms TaskDeleteFacts.

(** In the theorems below [guard_ok cfg t] says that the target passes
    line 153: it is a task or a kernel thread, or DEBUGASSERT is compiled
    out. *)

(** C1.  Deferred cancellation, cancelable target, cancellation points
    built in: task_delete sets the pending bit and returns OK; the notifier
    is called exactly once when the target is inside a cancellation point
    ([cpcount > 0]) and not at all when [cpcount] is 0 (or less). *)
Theorem deferred_delete_marks_and_notifies cfg env pid k t :
  CONFIG_CANCELLATION_POINTS cfg = true ->
  TCB_FLAG_CANCEL_PENDING cfg <> 0 ->
  notifier_keeps_flags env ->
  g_pidhash k !! resolve pid k = Some t ->
  guard_ok cfg t = true ->
  noncancelable cfg t = false ->
  deferred cfg t = true ->
  exists k' tr,
    task_delete cfg env pid k = (Returned OK, k', tr) /\
    pending_in cfg k' (resolve pid k) /\
    (0 < cpcount t ->
       tr = [EvLock; EvNotify (resolve pid k); EvUnlock] /\ calls is_notify tr = 1%nat) /\
    (cpcount t <= 0 ->
       tr = [EvLock; EvUnlock] /\ calls is_notify tr = 0%nat) /\
    calls is_terminate tr = 0%nat /\ calls is_exit tr = 0%nat.
Proof.
  intros C HP HN H T N D.
  destruct (0 <? cpcount t) eqn:P.
  - exists (after_notify cfg env pid k t), [EvLock; EvNotify (resolve pid k); EvUnlock].
    apply Z.ltb_lt in P as P'.
    split; [by apply delete_deferred_blocked|].
    split; [by apply pending_after_notify|].
    repeat split; try reflexivity; lia.
  - eexists _, [EvLock; EvUnlock].
    apply Z.ltb_ge in P as P'.
    split; [by apply delete_deferred_idle|].
    split; [by apply pending_after_mark|].
    repeat split; try reflexivity; lia.
Qed.

Lemma deferred_delete_blocked_witness :
  exists k' tr,
    task_delete (tizenrt true true) quiet 7 four_tasks = (Returned OK, k', tr) /\
    pending_in (tizenrt true true) k' 7 /\
    tr = [EvLock; EvNotify 7; EvUnlock] /\ calls is_notify tr = 1%nat.
Proof.
  destruct (deferred_delete_marks_and_notifies (tizenrt true true) quiet 7
              four_tasks (mk_tcb 8 2))
    as (k' & tr & E & P & B & _);
    [reflexivity | discriminate | exact quiet_keeps_flags
    | reflexivity | reflexivity | reflexivity | reflexivity |].
  exists k', tr. destruct B as [B1 B2]; [simpl; lia|]. auto.
Defined.

(** C2.  Non-cancelable target: task_delete sets the pending bit and
    returns OK, whatever the cancellation type; the target stays registered
    and neither task_terminate nor the notifier nor exit is called. *)
Theorem disabled_delete_only_marks_pending cfg env pid k t :
  TCB_FLAG_CANCEL_PENDING cfg <> 0 ->
  g_pidhash k !! resolve pid k = Some t ->
  guard_ok cfg t = true ->
  noncancelable cfg t = true ->
  exists k',
    task_delete cfg env pid k = (Returned OK, k', [EvLock; EvUnlock]) /\
    pending_in cfg k' (resolve pid k) /\
    alive k' (resolve pid k) /\
    calls is_terminate [EvLock; EvUnlock] = 0%nat /\
    (forall q, q <> resolve pid k -> g_pidhash k' !! q = g_pidhash k !! q).
Proof.
  intros HP H T N.
  eexists. split; [by apply delete_disabled|].
  split; [by apply pending_after_mark|].
  split; [|split; [reflexivity|]].
  - exists (mark_pending cfg t). simpl. apply lookup_insert_eq.
  - intros q Hq. simpl. by rewrite lookup_insert_ne.
Qed.

Lemma disabled_delete_witness :
  exists k',
    task_delete (tizenrt true true) quiet 9 four_tasks
      = (Returned OK, k', [EvLock; EvUnlock]) /\
    pending_in (tizenrt true true) k' 9 /\ alive k' 9.
Proof.
  destruct (disabled_delete_only_marks_pending (tizenrt true true) quiet 9
              four_tasks (mk_tcb 4 0))
    as (k' & E & P & A & _);
    [discriminate | reflexivity | reflexivity | reflexivity |].
  exists k'. auto.
Defined.

(** C3.  The running task deletes itself (pid 0 or its own pid) while it
    is cancelable and its cancellation type is asynchronous: task_delete
    ends in exit(EXIT_SUCCESS), after the scheduler lock is released, and
    does not return to its caller. *)
Theorem self_delete_async_exits cfg env pid k t :
  pid = 0 \/ pid = rtcb_pid k ->
  g_pidhash k !! rtcb_pid k = Some t ->
  guard_ok cfg t = true ->
  noncancelable cfg t = false ->
  deferred cfg t = false ->
  task_delete cfg env pid k
    = (Exited EXIT_SUCCESS, k, [EvLock; EvUnlock; EvExit EXIT_SUCCESS]) /\
  forall v k' tr, task_delete cfg env pid k <> (Returned v, k', tr).
Proof.
  intros S H T N D. apply resolve_self in S.
  assert (E : task_delete cfg env pid k
              = (Exited EXIT_SUCCESS, k, [EvLock; EvUnlock; EvExit EXIT_SUCCESS])).
  { eapply delete_self_exit; eauto.
    - by rewrite S.
    - rewrite D. apply andb_false_r. }
  split; [exact E|]. intros v k' tr. rewrite E. discriminate.
Qed.

Lemma self_delete_async_witness :
  task_delete (tizenrt true true) quiet 0 four_tasks
    = (Exited EXIT_SUCCESS, four_tasks, [EvLock; EvUnlock; EvExit EXIT_SUCCESS]).
Proof.
  apply (self_delete_async_exits (tizenrt true true) quiet 0 four_tasks (mk_tcb 0 0));
    [left; reflexivity | reflexivity | reflexivity | reflexivity | reflexivity].
Defined.

(** C4, as the specification words it, fails in a build without
    cancellation points: lines 180-200 are compiled out, so a running task
    whose flags carry the deferred bit and which deletes itself leaves
    through exit() like an asynchronous one. *)
Lemma self_delete_deferred_exits_without_cancellation_points :
  g_pidhash (four_tasks_run 6) !! rtcb_pid (four_tasks_run 6) = Some (mk_tcb 8 0) /\
  noncancelable (tizenrt false true) (mk_tcb 8 0) = false /\
  deferred (tizenrt false true) (mk_tcb 8 0) = true /\
  task_delete (tizenrt false true) quiet 0 (four_tasks_run 6)
    = (Exited EXIT_SUCCESS, four_tasks_run 6,
       [EvLock; EvUnlock; EvExit EXIT_SUCCESS]) /\
  ~ (exists v k' tr,
       task_delete (tizenrt false true) quiet 0 (four_tasks_run 6)
         = (Returned v, k', tr)).
Proof.
  assert (E : task_delete (tizenrt false true) quiet 0 (four_tasks_run 6)
              = (Exited EXIT_SUCCESS, four_tasks_run 6,
                 [EvLock; EvUnlock; EvExit EXIT_SUCCESS])) by reflexivity.
  repeat split; try reflexivity.
  intros (v & k' & tr & R). rewrite E in R. discriminate.
Qed.

(** C4, amended.  The running task deletes itself while it is
    non-cancelable, or while its cancellation type is deferred and the
    build has cancellation points: task_delete does not exit; it sets the
    pending bit and returns OK to the caller, which stays registered.  The
    test for these two modes comes before the test for self-deletion. *)
Theorem self_delete_not_async_returns cfg env pid k t :
  TCB_FLAG_CANCEL_PENDING cfg <> 0 ->
  notifier_keeps_flags env ->
  pid = 0 \/ pid = rtcb_pid k ->
  g_pidhash k !! rtcb_pid k = Some t ->
  guard_ok cfg t = true ->
  noncancelable cfg t = true \/
    (CONFIG_CANCELLATION_POINTS cfg = true /\ deferred cfg t = true) ->
  exists k' tr,
    task_delete cfg env pid k = (Returned OK, k', tr) /\
    pending_in cfg k' (rtcb_pid k) /\
    rtcb_pid k' = rtcb_pid k /\
    calls is_exit tr = 0%nat /\ calls is_terminate tr = 0%nat.
Proof.
  intros HP HN S H T B. apply resolve_self in S.
  destruct (delete_pending_paths cfg env pid k t HN) as (k' & tr & t' & E & L & F & R & X);
    auto; [by rewrite S|].
  exists k', tr. rewrite S in L. repeat split; try tauto.
  exists t'. split; [exact L|].
  eapply pending_of_flags; [exact F | by apply mark_pending_pending].
Qed.

Lemma self_delete_not_async_witness :
  exists k' tr,
    task_delete (tizenrt true true) quiet 0 (four_tasks_run 7) = (Returned OK, k', tr) /\
    pending_in (tizenrt true true) k' 7 /\
    rtcb_pid k' = 7 /\
    calls is_exit tr = 0%nat /\ calls is_terminate tr = 0%nat.
Proof.
  apply (self_delete_not_async_returns (tizenrt true true) quiet 0
           (four_tasks_run 7) (mk_tcb 8 2));
    [discriminate | exact quiet_keeps_flags | left; reflexivity
    | reflexivity | reflexivity | right; split; reflexivity].
Defined.

(** C5.  Another task, cancelable, asynchronous type: task_delete calls
    task_terminate(pid, false) exactly once, with the scheduler lock
    released.  A negative result [r] becomes errno [-r] and the return
    value ERROR; any other result gives OK.  There is no second call. *)
Theorem other_async_delete_terminates cfg env pid k t :
  g_pidhash k !! resolve pid k = Some t ->
  resolve pid k <> rtcb_pid k ->
  guard_ok cfg t = true ->
  noncancelable cfg t = false ->
  deferred cfg t = false ->
  exists r k1 tr,
    task_terminate_fx env (resolve pid k) false k = (r, k1) /\
    tr = [EvLock; EvUnlock; EvTerminate (resolve pid k) false] /\
    calls is_terminate tr = 1%nat /\
    (r < 0 ->
       task_delete cfg env pid k
         = (Returned ERROR, with_errno (int_wrap (- r)) k1, tr) /\
       (INT_MIN < r -> errno (with_errno (int_wrap (- r)) k1) = - r)) /\
    (0 <= r -> task_delete cfg env pid k = (Returned OK, k1, tr)).
Proof.
  intros H S T N D.
  assert (D' : CONFIG_CANCELLATION_POINTS cfg && deferred cfg t = false)
    by (rewrite D; apply andb_false_r).
  pose proof (delete_terminate cfg env pid k t H T N D' S) as E.
  destruct (task_terminate_fx env (resolve pid k) false k) as [r k1].
  exists r, k1, [EvLock; EvUnlock; EvTerminate (resolve pid k) false].
  repeat split.
  - destruct (Z.ltb_spec r 0); [exact E | lia].
  - intros Hr. simpl. apply int_wrap_id. unfold INT_MIN, INT_MAX, INT_BITS in *. lia.
  - intros Hr. destruct (Z.ltb_spec r 0); [lia | exact E].
Qed.

Lemma other_async_delete_fails_witness :
  task_delete (tizenrt true true) stubborn 5 (four_tasks_run 7)
    = (Returned ERROR, with_errno 22 (four_tasks_run 7),
       [EvLock; EvUnlock; EvTerminate 5 false]).
Proof.
  destruct (other_async_delete_terminates (tizenrt true true) stubborn 5
              (four_tasks_run 7) (mk_tcb 0 0))
    as (r & k1 & tr & R & -> & _ & F & _);
    [reflexivity | discriminate | reflexivity | reflexivity | reflexivity |].
  injection R as <- <-. apply F. reflexivity.
Defined.

(** C6.  The resolved pid is not registered: task_delete returns ERROR
    with errno ESRCH; it makes no call, takes no lock, and the table of
    tasks is the one it found. *)
Theorem unknown_pid_fails_with_ESRCH cfg env pid k :
  g_pidhash k !! resolve pid k = None ->
  exists k',
    task_delete cfg env pid k = (Returned ERROR, k', []) /\
    errno k' = ESRCH cfg /\
    g_pidhash k' = g_pidhash k /\
    lockcount k' = lockcount k /\
    rtcb_pid k' = rtcb_pid k.
Proof.
  intros H. exists (with_errno (ESRCH cfg) k).
  split; [by apply delete_not_found|]. repeat split.
Qed.

Lemma unknown_pid_witness :
  exists k',
    task_delete (tizenrt true true) quiet 999999 four_tasks = (Returned ERROR, k', []) /\
    errno k' = 3 /\
    g_pidhash k' = g_pidhash four_tasks /\
    lockcount k' = lockcount four_tasks /\
    rtcb_pid k' = rtcb_pid four_tasks.
Proof.
  apply (unknown_pid_fails_with_ESRCH (tizenrt true true) quiet 999999 four_tasks).
  reflexivity.
Defined.

(** C7, as the specification words it, fails in a build without
    cancellation points: a target with the deferred bit is handed to
    task_terminate like an asynchronous one and its pending bit is never
    set.  Here task_terminate refuses both times and the target is left
    with the flag clear. *)
Lemma deferred_target_not_marked_without_cancellation_points :
  g_pidhash four_tasks !! 7 = Some (mk_tcb 8 2) /\
  noncancelable (tizenrt false true) (mk_tcb 8 2) = false /\
  deferred (tizenrt false true) (mk_tcb 8 2) = true /\
  task_delete (tizenrt false true) stubborn 7 four_tasks
    = (Returned ERROR, with_errno 22 four_tasks,
       [EvLock; EvUnlock; EvTerminate 7 false]) /\
  task_delete (tizenrt false true) stubborn 7 (with_errno 22 four_tasks)
    = (Returned ERROR, with_errno 22 four_tasks,
       [EvLock; EvUnlock; EvTerminate 7 false]) /\
  ~ pending_in (tizenrt false true) (with_errno 22 four_tasks) 7.
Proof.
  repeat split; try reflexivity.
  intros (u & L & P).
  assert (u = mk_tcb 8 2) as -> by (vm_compute in L; congruence).
  discriminate P.
Qed.

(** C7, amended.  task_delete never clears a pending flag: a task whose
    flag was set has it set afterwards, unless task_terminate removed the
    task.  Two calls in a row on a target that is non-cancelable, or that
    has deferred cancellation in a build with cancellation points, both
    return OK and leave the flag set; the second call leaves the flags
    exactly as the first one did. *)
Theorem pending_flag_sticky cfg env pid k :
  pending_bit_apart cfg ->
  notifier_keeps_flags env ->
  terminator_keeps_pending cfg env ->
  (forall q,
     pending_in cfg k q ->
     pending_in cfg (task_delete cfg env pid k).1.2 q \/
     ~ alive (task_delete cfg env pid k).1.2 q) /\
  (forall t,
     g_pidhash k !! resolve pid k = Some t ->
     guard_ok cfg t = true ->
     noncancelable cfg t = true \/
       (CONFIG_CANCELLATION_POINTS cfg = true /\ deferred cfg t = true) ->
     exists k1 tr1 k2 tr2 t1 t2,
       task_delete cfg env pid k = (Returned OK, k1, tr1) /\
       task_delete cfg env pid k1 = (Returned OK, k2, tr2) /\
       g_pidhash k1 !! resolve pid k = Some t1 /\
       g_pidhash k2 !! resolve pid k = Some t2 /\
       cancel_pending cfg t1 = true /\
       cancel_pending cfg t2 = true /\
       flags t2 = flags t1).
Proof.
  intros HA HN HT. split.
  - intros q HP. by apply delete_keeps_pending.
  - intros t H T B.
    destruct (delete_pending_paths cfg env pid k t HN H T B)
      as (k1 & tr1 & t1 & E1 & L1 & F1 & R1 & _).
    assert (S : resolve pid k1 = resolve pid k) by (unfold resolve; by rewrite R1).
    destruct (mark_pending_mode cfg t t1 HA F1) as (M1 & M2 & M3).
    destruct (delete_pending_paths cfg env pid k1 t1 HN) as (k2 & tr2 & t2 & E2 & L2 & F2 & _).
    { by rewrite S. }
    { unfold guard_ok. by rewrite M1. }
    { by rewrite M2, M3. }
    rewrite S in L2.
    destruct HA as (HP & _).
    exists k1, tr1, k2, tr2, t1, t2. repeat split; auto.
    + eapply pending_of_flags; [exact F1 | by apply mark_pending_pending].
    + eapply pending_of_flags; [exact F2 | by apply mark_pending_pending].
    + rewrite F2. by apply (mark_pending_twice cfg t).
Qed.

Lemma pending_flag_sticky_witness :
  exists k1 tr1 k2 tr2 t1 t2,
    task_delete (tizenrt true true) quiet 7 four_tasks = (Returned OK, k1, tr1) /\
    task_delete (tizenrt true true) quiet 7 k1 = (Returned OK, k2, tr2) /\
    g_pidhash k1 !! 7 = Some t1 /\
    g_pidhash k2 !! 7 = Some t2 /\
    cancel_pending (tizenrt true true) t1 = true /\
    cancel_pending (tizenrt true true) t2 = true /\
    flags t2 = flags t1.
Proof.
  destruct (pending_flag_sticky (tizenrt true true) quiet 7 four_tasks) as [_ Twice];
    [apply tizenrt_pending_apart | exact quiet_keeps_flags
    | apply quiet_keeps_pending |].
  apply (Twice (mk_tcb 8 2));
    [reflexivity | reflexivity | right; split; reflexivity].
Defined.

(** C8.  The scheduler lock is balanced on every path.  Every trace of
    task_delete is well bracketed and holds no lock at a call of exit() or
    task_terminate(); a call that finds no task takes no lock; a call that
    finds its task and returns has locked once and unlocked once; and
    where neither the notifier nor task_terminate ran, the lock count is
    back at its value on entry. *)
Theorem scheduler_lock_balanced cfg env pid k :
  exists o k' tr,
    task_delete cfg env pid k = (o, k', tr) /\
    well_bracketed 0 tr = true /\
    unlocked_at_calls 0 tr = true /\
    (g_pidhash k !! resolve pid k = None ->
       calls is_lock tr = 0%nat /\ calls is_unlock tr = 0%nat) /\
    (forall v, o = Returned v -> alive k (resolve pid k) ->
       calls is_lock tr = 1%nat /\ calls is_unlock tr = 1%nat) /\
    (calls is_notify tr = 0%nat -> calls is_terminate tr = 0%nat ->
       lockcount k' = lockcount k).
Proof.
  destruct (delete_follows_path cfg env pid k) as (o & k' & tr & E & P).
  exists o, k', tr. split; [exact E|].
  destruct P as [k' H L|k' [t A] L|k' [t A] L|k' [t A]|k' [t A] L|v k' [t A] V];
    repeat split; try reflexivity; try done;
    try (intros; congruence); try (simpl; intros; discriminate);
    match goal with
    | A : alive _ _ |- _ => destruct A as [u Hu]; congruence
    end.
Qed.

End TaskDeleteSpec.

(** ** Properties of writev *)
Module WritevFacts.
Import Writev WritevTerms.

(** *** Areas and their addresses *)

Lemma addresses_nonpos base len : len <= 0 -> addresses base len = [].
Proof.
  intros H. unfold addresses. replace (Z.to_nat len) with 0%nat by lia. reflexivity.
Qed.

Lemma addresses_shift base a s m :
  0 <= a ->
  map (fun i => base + Z.of_nat i) (seq (Z.to_nat a + s) m)
  = map (fun i => base + a + Z.of_nat i) (seq s m).
Proof.
  intros Ha. revert s. induction m as [|m IH]; intros s; simpl; [reflexivity|].
  f_equal; [lia|]. rewrite <- (IH (S s)). f_equal. f_equal. lia.
Qed.

Lemma addresses_split base a b :
  0 <= a -> 0 <= b ->
  addresses base (a + b) = addresses base a ++ addresses (base + a) b.
Proof.
  intros Ha Hb. unfold addresses.
  rewrite Z2Nat.inj_add by lia.
  rewrite seq_app, map_app. f_equal.
  rewrite Nat.add_comm. by apply addresses_shift.
Qed.

Lemma transferred_app tr1 tr2 :
  transferred (tr1 ++ tr2) = transferred tr1 ++ transferred tr2.
Proof. unfold transferred. apply flat_map_app. Qed.

Lemma write_failed_app tr1 tr2 :
  write_failed (tr1 ++ tr2) = write_failed tr1 || write_failed tr2.
Proof. unfold write_failed. apply existsb_app. Qed.

Lemma total_len_nonneg vec :
  Forall (fun v => 0 <= iov_len v) vec -> 0 <= total_len vec.
Proof. induction 1; simpl; lia. Qed.

Lemma SSIZE_MAX_lt bits : SSIZE_MAX bits < 2 ^ (bits - 1).
Proof. unfold SSIZE_MAX. lia. Qed.

(** *** Runs in which no write fails *)
Section Success.

Context {F : Type} (sys : syscalls F) (bits : Z) (fildes pos : Z).
Hypothesis bits_pos : 0 < bits.
(** write takes at least one byte and at most those it was offered. *)
Hypothesis write_progress :
  forall buffer n w, 0 < n -> 0 < (write sys fildes buffer n w).1 <= n.

Lemma write_area_ok fuel buffer remaining ntotal w :
  0 < remaining < 2 ^ bits ->
  0 <= ntotal ->
  ntotal + remaining <= SSIZE_MAX bits ->
  (Z.to_nat remaining <= fuel)%nat ->
  exists w' tr,
    write_area sys bits fuel fildes pos buffer remaining ntotal w
      = (inr (ntotal + remaining), w', tr) /\
    transferred tr = addresses buffer remaining /\
    write_failed tr = false.
Proof.
  revert buffer remaining ntotal w.
  induction fuel as [|fuel IH]; intros buffer remaining ntotal w Hr Hn Hs Hf; [lia|].
  pose proof (SSIZE_MAX_lt bits) as Hmax.
  pose proof (write_progress buffer remaining w (proj1 Hr)) as Hw.
  simpl. destruct (write sys fildes buffer remaining w) as [r w1]. simpl in Hw.
  destruct (Z.ltb_spec r 0) as [?|_]; [lia|].
  rewrite (uwrap_id bits (remaining - r)) by lia.
  rewrite (swrap_id bits (ntotal + r)) by lia.
  destruct (Z.ltb_spec 0 (remaining - r)) as [Hm|Hm].
  - destruct (IH (buffer + r) (remaining - r) (ntotal + r) w1) as (w' & tr & E & T & W);
      try lia.
    rewrite E. eexists w', _. split; [f_equal; f_equal; f_equal; lia|].
    split.
    + simpl. rewrite T. rewrite <- addresses_split by lia. f_equal. lia.
    + unfold write_failed in *. simpl. rewrite W.
      destruct (Z.ltb_spec r 0); [lia | reflexivity].
  - assert (r = remaining) as -> by lia.
    eexists w1, _. split; [reflexivity|]. split.
    + simpl. apply app_nil_r.
    + unfold write_failed. simpl.
      destruct (Z.ltb_spec remaining 0); [lia | reflexivity].
Qed.

Lemma entry_ok_nonneg fuel vec :
  Forall (entry_ok bits fuel) vec -> Forall (fun v => 0 <= iov_len v) vec.
Proof.
  intros H. eapply Forall_impl; [exact H|]. intros v [Hv _]. simpl. lia.
Qed.

Lemma each_iov_ok fuel iov count i ntotal w :
  (i + count <= length iov)%nat ->
  Forall (entry_ok bits fuel) (take count (drop i iov)) ->
  0 <= ntotal ->
  ntotal + total_len (take count (drop i iov)) <= SSIZE_MAX bits ->
  exists w' tr,
    each_iov sys bits fuel fildes pos iov count i ntotal w
      = (Done (ntotal + total_len (take count (drop i iov))), w', tr) /\
    transferred tr = gathered (take count (drop i iov)) /\
    write_failed tr = false.
Proof.
  revert i ntotal w.
  induction count as [|count IH]; intros i ntotal w Hlen Hok Hn Hs.
  { exists w, []. simpl. rewrite Z.add_0_r. auto. }
  destruct (lookup_lt_is_Some_2 iov i) as [v Hv]; [lia|].
  rewrite (drop_S _ _ _ Hv) in *. simpl in *.
  apply Forall_cons in Hok as [[Hv1 Hv2] Hok].
  pose proof (total_len_nonneg _ (entry_ok_nonneg _ _ Hok)) as Hrest.
  rewrite Hv.
  destruct (Z.ltb_spec 0 (iov_len v)) as [Hpos|Hzero].
  - destruct (write_area_ok fuel (iov_base v) (iov_len v) ntotal w)
      as (w1 & tr1 & E1 & T1 & W1); try lia.
    rewrite E1.
    destruct (IH (S i) (ntotal + iov_len v) w1) as (w2 & tr2 & E2 & T2 & W2);
      try lia; try done.
    rewrite E2. exists w2, (tr1 ++ tr2).
    split; [f_equal; f_equal; f_equal; lia|].
    split.
    + rewrite transferred_app, T1, T2. reflexivity.
    + rewrite write_failed_app, W1, W2. reflexivity.
  - assert (iov_len v = 0) as Hz by lia.
    destruct (IH (S i) ntotal w) as (w2 & tr2 & E2 & T2 & W2); try lia; try done.
    rewrite E2. exists w2, tr2.
    split; [f_equal; f_equal; f_equal; lia|].
    split; [|exact W2].
    rewrite T2, Hz. by rewrite addresses_nonpos.
Qed.

End Success.

(** *** Runs whose write calls have all succeeded *)
Section RunSuccess.

Context {F : Type} (sys : syscalls F) (bits : Z) (fildes pos : Z).
Hypothesis bits_pos : 0 < bits.

Lemma writes_succeeded_app tr1 tr2 :
  writes_succeeded (tr1 ++ tr2) = writes_succeeded tr1 && writes_succeeded tr2.
Proof. unfold writes_succeeded. apply forallb_app. Qed.

Lemma write_area_run_ok fuel buffer remaining ntotal w :
  0 < remaining < 2 ^ bits ->
  0 <= ntotal ->
  ntotal + remaining <= SSIZE_MAX bits ->
  (Z.to_nat remaining <= fuel)%nat ->
  writes_succeeded
    (write_area sys bits fuel fildes pos buffer remaining ntotal w).2 = true ->
  exists w' tr,
    write_area sys bits fuel fildes pos buffer remaining ntotal w
      = (inr (ntotal + remaining), w', tr) /\
    transferred tr = addresses buffer remaining /\
    write_failed tr = false.
Proof.
  revert buffer remaining ntotal w.
  induction fuel as [|fuel IH]; intros buffer remaining ntotal w Hr Hn Hs Hf Hrun;
    [lia|].
  pose proof (SSIZE_MAX_lt bits) as Hmax.
  simpl in *. destruct (write sys fildes buffer remaining w) as [r w1].
  (* the first write call of the run has succeeded *)
  assert (Hw : 0 < r <= remaining).
  { destruct (r <? 0).
    - destruct (lseek sys fildes pos SEEK_SET w1) as [x w2]. simpl in Hrun.
      apply andb_true_iff in Hrun as [Hrun _].
      apply andb_true_iff in Hrun as [H1 H2]. lia.
    - destruct (0 <? uwrap bits (remaining - r)).
      + destruct (write_area sys bits fuel fildes pos (buffer + r)
                    (uwrap bits (remaining - r)) (swrap bits (ntotal + r)) w1)
          as [[o w3] tr].
        simpl in Hrun. apply andb_true_iff in Hrun as [Hrun _].
        apply andb_true_iff in Hrun as [H1 H2]. lia.
      + simpl in Hrun. apply andb_true_iff in Hrun as [Hrun _].
        apply andb_true_iff in Hrun as [H1 H2]. lia. }
  destruct (Z.ltb_spec r 0) as [?|_]; [lia|].
  rewrite (uwrap_id bits (remaining - r)) in * by lia.
  rewrite (swrap_id bits (ntotal + r)) in * by lia.
  destruct (Z.ltb_spec 0 (remaining - r)) as [Hm|Hm].
  - destruct (write_area sys bits fuel fildes pos (buffer + r) (remaining - r)
                (ntotal + r) w1) as [[o w3] tr] eqn:E.
    simpl in Hrun. apply andb_true_iff in Hrun as [_ Hrun].
    destruct (IH (buffer + r) (remaining - r) (ntotal + r) w1) as (w' & tr' & E' & T & W);
      try lia.
    { by rewrite E. }
    rewrite E in E'. injection E' as -> -> ->.
    eexists w', _. split; [f_equal; f_equal; f_equal; lia|]. split.
    + simpl. rewrite T. rewrite <- addresses_split by lia. f_equal. lia.
    + unfold write_failed in *. simpl. rewrite W.
      destruct (Z.ltb_spec r 0); [lia | reflexivity].
  - assert (r = remaining) as -> by lia.
    eexists w1, _. split; [reflexivity|]. split.
    + simpl. apply app_nil_r.
    + unfold write_failed. simpl.
      destruct (Z.ltb_spec remaining 0); [lia | reflexivity].
Qed.

Lemma each_iov_run_ok fuel iov count i ntotal w :
  (i + count <= length iov)%nat ->
  Forall (entry_ok bits fuel) (take count (drop i iov)) ->
  0 <= ntotal ->
  ntotal + total_len (take count (drop i iov)) <= SSIZE_MAX bits ->
  writes_succeeded
    (each_iov sys bits fuel fildes pos iov count i ntotal w).2 = true ->
  exists w' tr,
    each_iov sys bits fuel fildes pos iov count i ntotal w
      = (Done (ntotal + total_len (take count (drop i iov))), w', tr) /\
    transferred tr = gathered (take count (drop i iov)) /\
    write_failed tr = false.
Proof.
  revert i ntotal w.
  induction count as [|count IH]; intros i ntotal w Hlen Hok Hn Hs Hrun.
  { exists w, []. simpl. rewrite Z.add_0_r. auto. }
  destruct (lookup_lt_is_Some_2 iov i) as [v Hv]; [lia|].
  rewrite (drop_S _ _ _ Hv) in *. simpl in *.
  apply Forall_cons in Hok as [[Hv1 Hv2] Hok].
  assert (Hrest : 0 <= total_len (take count (drop (S i) iov))).
  { apply total_len_nonneg. eapply Forall_impl; [exact Hok|].
    intros u [Hu _]. simpl. lia. }
  rewrite Hv in *.
  destruct (Z.ltb_spec 0 (iov_len v)) as [Hpos|Hzero].
  - destruct (write_area sys bits fuel fildes pos (iov_base v) (iov_len v) ntotal w)
      as [[on w1] tr1] eqn:E1.
    assert (Hrun1 : writes_succeeded tr1 = true).
    { destruct on as [o|n]; [exact Hrun|].
      destruct (each_iov sys bits fuel fildes pos iov count (S i) n w1)
        as [[o2 w2] tr2].
      simpl in Hrun. rewrite writes_succeeded_app in Hrun.
      by apply andb_true_iff in Hrun as [? _]. }
    destruct (write_area_run_ok fuel (iov_base v) (iov_len v) ntotal w)
      as (w1' & tr1' & E1' & T1 & W1); try lia.
    { by rewrite E1. }
    rewrite E1 in E1'. injection E1' as -> -> ->.
    destruct (each_iov sys bits fuel fildes pos iov count (S i)
                (ntotal + iov_len v) w1') as [[o2 w2] tr2] eqn:E2.
    simpl in Hrun. rewrite writes_succeeded_app in Hrun.
    apply andb_true_iff in Hrun as [_ Hrun2].
    destruct (IH (S i) (ntotal + iov_len v) w1') as (w2' & tr2' & E2' & T2 & W2);
      try lia; try done.
    { by rewrite E2. }
    rewrite E2 in E2'. injection E2' as -> -> ->.
    exists w2', (tr1' ++ tr2'). split; [f_equal; f_equal; f_equal; lia|]. split.
    + by rewrite transferred_app, T1, T2.
    + by rewrite write_failed_app, W1, W2.
  - assert (iov_len v = 0) as Hz by lia.
    destruct (IH (S i) ntotal w) as (w2 & tr2 & E2 & T2 & W2); try lia; try done.
    rewrite E2. exists w2, tr2. split; [f_equal; f_equal; f_equal; lia|].
    split; [|exact W2].
    rewrite T2, Hz. by rewrite addresses_nonpos.
Qed.

End RunSuccess.

(** *** A vector of empty areas *)

Lemma each_iov_empty {F} (sys : syscalls F) bits fuel fildes pos iov count i ntotal w :
  (i + count <= length iov)%nat ->
  Forall (fun v => iov_len v = 0) (take count (drop i iov)) ->
  each_iov sys bits fuel fildes pos iov count i ntotal w = (Done ntotal, w, []).
Proof.
  revert i. induction count as [|count IH]; intros i Hlen Hz; [reflexivity|].
  destruct (lookup_lt_is_Some_2 iov i) as [v Hv]; [lia|].
  rewrite (drop_S _ _ _ Hv) in Hz. simpl in *.
  apply Forall_cons in Hz as [Hv0 Hz].
  rewrite Hv, Hv0. simpl. apply IH; [lia | exact Hz].
Qed.

(** *** Runs in which a write fails *)
Section Failure.

Context {F : Type} (sys : syscalls F) (bits : Z) (fildes pos : Z).

Lemma restored_cons e tr w' :
  is_failed_write e = false -> restored sys fildes pos tr w' -> restored sys fildes pos (e :: tr) w'.
Proof.
  intros He (pre & buffer & n & r & w0 & w1 & Hw & -> & Hr & Hp & ->).
  exists (e :: pre), buffer, n, r, w0, w1. repeat split; auto.
  unfold write_failed in *. simpl. by rewrite He, Hp.
Qed.

Lemma restored_app tr0 tr w' :
  write_failed tr0 = false -> restored sys fildes pos tr w' -> restored sys fildes pos (tr0 ++ tr) w'.
Proof.
  intros H0 (pre & buffer & n & r & w0 & w1 & Hw & -> & Hr & Hp & ->).
  exists (tr0 ++ pre), buffer, n, r, w0, w1. repeat split; auto.
  - by rewrite app_assoc.
  - by rewrite write_failed_app, H0, Hp.
Qed.

Lemma write_area_cases fuel buffer remaining ntotal w o w' tr :
  write_area sys bits fuel fildes pos buffer remaining ntotal w = (o, w', tr) ->
  (o = inl (Done ERROR) /\ restored sys fildes pos tr w') \/
  ((o = inl OutOfFuel \/ exists n, o = inr n) /\ write_failed tr = false).
Proof.
  revert buffer remaining ntotal w o w' tr.
  induction fuel as [|fuel IH]; intros buffer remaining ntotal w o w' tr E; simpl in E.
  { injection E as <- <- <-. right. auto. }
  destruct (write sys fildes buffer remaining w) as [r w1] eqn:Hw.
  destruct (Z.ltb_spec r 0) as [Hr|Hr].
  - destruct (lseek sys fildes pos SEEK_SET w1) as [x w2] eqn:Hl.
    injection E as <- <- <-. left. split; [reflexivity|].
    exists [], buffer, remaining, r, w, w1. rewrite Hl. simpl. auto.
  - assert (Hev : is_failed_write
              (EvWrite fildes buffer remaining r (get_errno w1)) = false)
      by (simpl; destruct (Z.ltb_spec r 0); [lia | reflexivity]).
    destruct (0 <? uwrap bits (remaining - r)).
    + destruct (write_area sys bits fuel fildes pos (buffer + r)
                  (uwrap bits (remaining - r)) (swrap bits (ntotal + r)) w1)
        as [[o1 w3] tr1] eqn:E1.
      injection E as <- <- <-.
      destruct (IH _ _ _ _ _ _ _ E1) as [[-> R]|[O W]].
      * left. split; [reflexivity|]. by apply restored_cons.
      * right. split; [exact O|]. unfold write_failed in *. simpl.
        simpl in Hev. by rewrite Hev, W.
    + injection E as <- <- <-. right. split; [right; eauto|].
      unfold write_failed. simpl. simpl in Hev. by rewrite Hev.
Qed.

Lemma each_iov_cases fuel iov count i ntotal w o w' tr :
  each_iov sys bits fuel fildes pos iov count i ntotal w = (o, w', tr) ->
  (o = Done ERROR /\ restored sys fildes pos tr w') \/ write_failed tr = false.
Proof.
  revert i ntotal w o w' tr.
  induction count as [|count IH]; intros i ntotal w o w' tr E; simpl in E.
  { injection E as <- <- <-. by right. }
  destruct (iov !! i) as [v|]; [|injection E as <- <- <-; by right].
  destruct (0 <? iov_len v); [|by apply (IH _ _ _ _ _ _ E)].
  destruct (write_area sys bits fuel fildes pos (iov_base v) (iov_len v) ntotal w)
    as [[o1 w1] tr1] eqn:E1.
  destruct (write_area_cases _ _ _ _ _ _ _ _ E1) as [[-> R]|[O W]].
  - injection E as <- <- <-. by left.
  - destruct O as [->|[n ->]].
    + injection E as <- <- <-. by right.
    + destruct (each_iov sys bits fuel fildes pos iov count (S i) n w1)
        as [[o2 w2] tr2] eqn:E2.
      injection E as <- <- <-.
      destruct (IH _ _ _ _ _ _ E2) as [[-> R]|W2].
      * left. split; [reflexivity|]. by apply restored_app.
      * right. by rewrite write_failed_app, W, W2.
Qed.

End Failure.

(** *** Runs on the small file system *)

(** The device fills up during the second area: the position goes back
    to 10, and errno is ENOSPC although the last lseek cleared it. *)
Example run_writev_disk_full :
  writev (disk_sys 3) 32 10 3 [mk_iovec 100 3; mk_iovec 150 0; mk_iovec 200 5] 3
    (mk_world 0 (mk_disk 10 4))
  = (Done ERROR, mk_world ENOSPC (mk_disk 10 0),
     [EvLseek 3 0 SEEK_CUR 10; EvWrite 3 100 3 3 0; EvWrite 3 200 5 1 0;
      EvWrite 3 201 4 (-1) ENOSPC; EvLseek 3 10 SEEK_SET 10]).
Proof. reflexivity. Qed.

(** Two bytes at a time. *)
Example run_writev_in_chunks :
  writev roomy_sys 32 5 3 [mk_iovec 100 3; mk_iovec 150 0; mk_iovec 200 5] 3
    (mk_world 0 (mk_disk 10 0))
  = (Done 8, mk_world 0 (mk_disk 18 0),
     [EvLseek 3 0 SEEK_CUR 10; EvWrite 3 100 3 2 0; EvWrite 3 102 1 1 0;
      EvWrite 3 200 5 2 0; EvWrite 3 202 3 2 0; EvWrite 3 204 1 1 0]).
Proof. reflexivity. Qed.

(** The fuel is too small for an area of five bytes written two at a
    time: the do-while loop is still running. *)
Example run_writev_out_of_fuel :
  (writev roomy_sys 32 2 3 [mk_iovec 200 5] 1 (mk_world 0 (mk_disk 10 0))).1.1
  = OutOfFuel.
Proof. reflexivity. Qed.

(** [iovcnt] beyond the array. *)
Example run_writev_out_of_bounds :
  (writev roomy_sys 32 5 3 [mk_iovec 100 3] 2 (mk_world 0 (mk_disk 10 0))).1.1
  = OutOfBounds.
Proof. reflexivity. Qed.

(** With a 16-bit ssize_t two areas of 20000 bytes add up to more than
    SSIZE_MAX = 32767.  The header comment of writev says that the call
    fails then and transfers nothing; the code has no such test: every
    byte is written and [ntotal] has wrapped around. *)
Example run_writev_sum_above_SSIZE_MAX :
  writev (disk_sys 30000) 16 1 3 [mk_iovec 100 20000; mk_iovec 30000 20000] 2
    (mk_world 0 (mk_disk 0 100000))
  = (Done (-25536), mk_world 0 (mk_disk 40000 60000),
     [EvLseek 3 0 SEEK_CUR 0; EvWrite 3 100 20000 20000 0;
      EvWrite 3 30000 20000 20000 0]).
Proof. vm_compute. reflexivity. Qed.

(** *** More fuel changes nothing once a run has ended *)
Section Fuel.

Context {F : Type} (sys : syscalls F) (bits : Z) (fildes pos : Z).

Lemma write_area_fuel_mono fuel fuel' buffer remaining ntotal w o w' tr :
  (fuel <= fuel')%nat ->
  write_area sys bits fuel fildes pos buffer remaining ntotal w = (o, w', tr) ->
  o <> inl OutOfFuel ->
  write_area sys bits fuel' fildes pos buffer remaining ntotal w = (o, w', tr).
Proof.
  revert fuel' buffer remaining ntotal w o w' tr.
  induction fuel as [|fuel IH]; intros fuel' buffer remaining ntotal w o w' tr Hle E Ho.
  { simpl in E. injection E as <- <- <-. congruence. }
  destruct fuel' as [|fuel']; [lia|]. simpl in *.
  destruct (write sys fildes buffer remaining w) as [r w1].
  destruct (r <? 0); [exact E|].
  destruct (0 <? uwrap bits (remaining - r)); [|exact E].
  destruct (write_area sys bits fuel fildes pos (buffer + r)
              (uwrap bits (remaining - r)) (swrap bits (ntotal + r)) w1)
    as [[o1 w3] tr1] eqn:E1.
  injection E as <- <- <-.
  rewrite (IH fuel' _ _ _ _ _ _ _ ltac:(lia) E1 Ho). reflexivity.
Qed.

Lemma each_iov_fuel_mono fuel fuel' iov count i ntotal w o w' tr :
  (fuel <= fuel')%nat ->
  each_iov sys bits fuel fildes pos iov count i ntotal w = (o, w', tr) ->
  o <> OutOfFuel ->
  each_iov sys bits fuel' fildes pos iov count i ntotal w = (o, w', tr).
Proof.
  intros Hle. revert i ntotal w o w' tr.
  induction count as [|count IH]; intros i ntotal w o w' tr E Ho; simpl in *;
    [exact E|].
  destruct (iov !! i) as [v|]; [|exact E].
  destruct (0 <? iov_len v); [|by apply IH].
  destruct (write_area sys bits fuel fildes pos (iov_base v) (iov_len v) ntotal w)
    as [[[o1|n] w1] tr1] eqn:E1.
  - injection E as <- <- <-.
    rewrite (write_area_fuel_mono _ fuel' _ _ _ _ _ _ _ Hle E1); [reflexivity|].
    congruence.
  - rewrite (write_area_fuel_mono _ fuel' _ _ _ _ _ _ _ Hle E1) by discriminate.
    destruct (each_iov sys bits fuel fildes pos iov count (S i) n w1)
      as [[o2 w2] tr2] eqn:E2.
    injection E as <- <- <-.
    rewrite (IH _ _ _ _ _ _ E2 Ho). reflexivity.
Qed.

End Fuel.

Lemma writev_fuel_mono {F} (sys : syscalls F) bits fildes fuel fuel' iov iovcnt w o w' tr :
  (fuel <= fuel')%nat ->
  writev sys bits fuel fildes iov iovcnt w = (o, w', tr) ->
  o <> OutOfFuel ->
  writev sys bits fuel' fildes iov iovcnt w = (o, w', tr).
Proof.
  unfold writev. intros Hle E Ho.
  destruct (lseek sys fildes 0 SEEK_CUR w) as [p w0].
  destruct (p =? -1); [exact E|].
  destruct (each_iov sys bits fuel fildes p iov (Z.to_nat iovcnt) 0 0 w0)
    as [[o1 w1] tr1] eqn:E1.
  injection E as <- <- <-.
  rewrite (each_iov_fuel_mono sys bits fildes p fuel fuel' _ _ _ _ _ _ _ _ Hle E1 Ho). reflexivity.
Qed.

End WritevFacts.

(** ** The specification of writev, claim by claim *)
Module WritevSpec.
Import Writev WritevTerms WritevFacts.

(** C9, as the specification words it, fails on a descriptor that cannot
    seek: writev asks for the file position first (line 111) and returns
    ERROR when that fails, before any write is tried.  No write call has
    failed, and writev has not returned the sum 3 of the lengths. *)
Lemma writev_on_pipe_fails_before_writing :
  writev pipe_sys 32 10 3 [mk_iovec 100 3] 1 (mk_world 0 (mk_disk 0 0))
    = (Done ERROR, mk_world ESPIPE (mk_disk 0 0), [EvLseek 3 0 SEEK_CUR (-1)]) /\
  write_failed [EvLseek 3 0 SEEK_CUR (-1)] = false /\
  List.filter is_write [EvLseek 3 0 SEEK_CUR (-1)] = [] /\
  Done ERROR <> Done (total_len [mk_iovec 100 3]).
Proof. repeat split; try reflexivity. discriminate. Qed.

(** C9, amended.  When the query of the file position succeeds, every
    write call of the run succeeds (it takes at least one and at most the
    offered bytes), and the lengths of the [iovcnt] entries add up to no
    more than SSIZE_MAX, writev returns that sum, and its write calls have
    taken the bytes of the areas completely and in the order of the
    vector.  When all the lengths are 0 it returns 0 and has made no call
    but the query.  The condition on write is about the calls writev has
    made in this run, not about what write would do elsewhere. *)
Theorem writev_gathers_all {F} (sys : syscalls F) bits fuel fildes iov iovcnt w :
  0 < bits ->
  (lseek sys fildes 0 SEEK_CUR w).1 <> -1 ->
  iovcnt <= Z.of_nat (length iov) ->
  Forall (fun v => 0 <= iov_len v < 2 ^ bits) (take (Z.to_nat iovcnt) iov) ->
  (writes_succeeded (writev sys bits fuel fildes iov iovcnt w).2 = true ->
   total_len (take (Z.to_nat iovcnt) iov) <= SSIZE_MAX bits ->
   Forall (fun v => (Z.to_nat (iov_len v) <= fuel)%nat) (take (Z.to_nat iovcnt) iov) ->
   exists w' tr,
     writev sys bits fuel fildes iov iovcnt w
       = (Done (total_len (take (Z.to_nat iovcnt) iov)), w',
          EvLseek fildes 0 SEEK_CUR (lseek sys fildes 0 SEEK_CUR w).1 :: tr) /\
     transferred tr = gathered (take (Z.to_nat iovcnt) iov) /\
     write_failed tr = false) /\
  (Forall (fun v => iov_len v = 0) (take (Z.to_nat iovcnt) iov) ->
   writev sys bits fuel fildes iov iovcnt w
     = (Done 0, (lseek sys fildes 0 SEEK_CUR w).2,
        [EvLseek fildes 0 SEEK_CUR (lseek sys fildes 0 SEEK_CUR w).1])).
Proof.
  intros Hb Hpos Hcnt Hsz. unfold writev.
  destruct (lseek sys fildes 0 SEEK_CUR w) as [pos w0]. simpl in *.
  apply Z.eqb_neq in Hpos. rewrite Hpos.
  assert (Hlen : (0 + Z.to_nat iovcnt <= length iov)%nat) by lia.
  split.
  - intros Hrun Hsum Hfuel.
    destruct (each_iov sys bits fuel fildes pos iov (Z.to_nat iovcnt) 0 0 w0)
      as [[o w1] tr] eqn:E.
    simpl in Hrun.
    destruct (each_iov_run_ok sys bits fildes pos Hb fuel iov (Z.to_nat iovcnt) 0 0 w0)
      as (w' & tr' & E' & T & W); auto; try lia.
    { change (drop 0 iov) with iov. apply Forall_forall. intros v Hv. split.
      - by apply (proj1 (Forall_forall _ _) Hsz).
      - by apply (proj1 (Forall_forall _ _) Hfuel). }
    { by rewrite E. }
    change (drop 0 iov) with iov in *. rewrite E in E'.
    injection E' as -> -> ->. exists w', tr'. auto.
  - intros Hz.
    rewrite (each_iov_empty sys bits fuel fildes pos iov (Z.to_nat iovcnt) 0 0 w0);
      [reflexivity | exact Hlen | exact Hz].
Qed.

(** A run on a device that would refuse a write once it is full: it is
    not full yet, and every write call of the run has succeeded. *)
Lemma writev_gathers_all_witness :
  exists w' tr,
    writev (disk_sys 2) 32 5 3 [mk_iovec 100 3; mk_iovec 150 0; mk_iovec 200 5] 3
        (mk_world 0 (mk_disk 10 9))
      = (Done 8, w', EvLseek 3 0 SEEK_CUR 10 :: tr) /\
    transferred tr = [100; 101; 102; 200; 201; 202; 203; 204] /\
    write_failed tr = false.
Proof.
  destruct (writev_gathers_all (disk_sys 2) 32 5 3
              [mk_iovec 100 3; mk_iovec 150 0; mk_iovec 200 5] 3
              (mk_world 0 (mk_disk 10 9))) as [Main _];
    [lia | simpl; lia | simpl; lia
    | repeat constructor; simpl; lia |].
  apply Main.
  - reflexivity.
  - vm_compute. discriminate.
  - repeat constructor; simpl; lia.
Defined.

(** C10, as the specification words it, fails where the lseek that is to
    set the position back fails itself: writev ignores its result (line
    141).  Here the position read on entry is 10; the third write fails
    with ENOSPC after four bytes have gone out; lseek(fildes, 10, SEEK_SET)
    returns -1; writev returns ERROR with errno ENOSPC, and the position
    is 14, not 10. *)
Lemma writev_leaves_position_when_lseek_back_fails :
  (lseek (stuck_sys 3) 3 0 SEEK_CUR (mk_world 0 (mk_disk 10 4))).1 = 10 /\
  writev (stuck_sys 3) 32 10 3 [mk_iovec 100 3; mk_iovec 200 5] 2
    (mk_world 0 (mk_disk 10 4))
  = (Done ERROR, mk_world ENOSPC (mk_disk 14 0),
     [EvLseek 3 0 SEEK_CUR 10; EvWrite 3 100 3 3 0; EvWrite 3 200 5 1 0;
      EvWrite 3 201 4 (-1) ENOSPC; EvLseek 3 10 SEEK_SET (-1)]) /\
  write_failed
    [EvLseek 3 0 SEEK_CUR 10; EvWrite 3 100 3 3 0; EvWrite 3 200 5 1 0;
     EvWrite 3 201 4 (-1) ENOSPC; EvLseek 3 10 SEEK_SET (-1)] = true /\
  position (fs (mk_world ENOSPC (mk_disk 14 0))) <> 10.
Proof. repeat split; try reflexivity. simpl. lia. Qed.

(** C10, amended.  When a write call fails, writev returns ERROR.  Its
    last call is lseek(fildes, pos, SEEK_SET), [pos] being the position it
    read on entry, made in the world [w1] that the failed write returned;
    the result of that lseek is ignored.  The world writev leaves is the
    one that lseek left, with errno put back to the errno of [w1]: the
    caller sees the errno of the failed write, whatever the lseek did to
    errno, and the file position is [pos] whenever that lseek has put it
    there. *)
Theorem writev_failure_restores {F} (sys : syscalls F)
    bits fuel fildes iov iovcnt w :
  write_failed (writev sys bits fuel fildes iov iovcnt w).2 = true ->
  exists pre buffer n r w0 w1,
    write sys fildes buffer n w0 = (r, w1) /\
    r < 0 /\
    write_failed pre = false /\
    writev sys bits fuel fildes iov iovcnt w
      = (Done ERROR,
         set_errno (errno w1)
           (lseek sys fildes (lseek sys fildes 0 SEEK_CUR w).1 SEEK_SET w1).2,
         EvLseek fildes 0 SEEK_CUR (lseek sys fildes 0 SEEK_CUR w).1
           :: pre ++ [EvWrite fildes buffer n r (errno w1);
                      EvLseek fildes (lseek sys fildes 0 SEEK_CUR w).1 SEEK_SET
                        (lseek sys fildes (lseek sys fildes 0 SEEK_CUR w).1
                           SEEK_SET w1).1]) /\
    errno (writev sys bits fuel fildes iov iovcnt w).1.2 = errno w1 /\
    (forall file_pos : F -> Z,
       file_pos (fs (lseek sys fildes (lseek sys fildes 0 SEEK_CUR w).1
                       SEEK_SET w1).2)
       = (lseek sys fildes 0 SEEK_CUR w).1 ->
       file_pos (fs (writev sys bits fuel fildes iov iovcnt w).1.2)
       = (lseek sys fildes 0 SEEK_CUR w).1).
Proof.
  unfold writev.
  destruct (lseek sys fildes 0 SEEK_CUR w) as [pos w0]. simpl.
  intros Hfail.
  destruct (pos =? -1); [discriminate Hfail|].
  destruct (each_iov sys bits fuel fildes pos iov (Z.to_nat iovcnt) 0 0 w0)
    as [[o w'] tr] eqn:E.
  simpl in Hfail. change (write_failed tr = true) in Hfail.
  destruct (each_iov_cases sys bits fildes pos _ _ _ _ _ _ _ _ _ E) as [[-> R]|W];
    [|congruence].
  destruct R as (pre & buffer & n & r & wb & w1 & Hw & -> & Hr & Hp & ->).
  exists pre, buffer, n, r, wb, w1. simpl. repeat split; auto.
Qed.

(** The device fills up during the second area; the lseek back clears
    errno, and the caller still sees the errno of the failed write. *)
Lemma writev_failure_witness :
  exists pre buffer n r w0 w1,
    write (disk_sys 3) 3 buffer n w0 = (r, w1) /\
    r < 0 /\
    write_failed pre = false /\
    writev (disk_sys 3) 32 10 3 [mk_iovec 100 3; mk_iovec 150 0; mk_iovec 200 5] 3
        (mk_world 0 (mk_disk 10 4))
      = (Done ERROR,
         set_errno (errno w1) (lseek (disk_sys 3) 3 10 SEEK_SET w1).2,
         EvLseek 3 0 SEEK_CUR 10
           :: pre ++ [EvWrite 3 buffer n r (errno w1);
                      EvLseek 3 10 SEEK_SET (lseek (disk_sys 3) 3 10 SEEK_SET w1).1]) /\
    errno (writev (disk_sys 3) 32 10 3
             [mk_iovec 100 3; mk_iovec 150 0; mk_iovec 200 5] 3
             (mk_world 0 (mk_disk 10 4))).1.2 = errno w1 /\
    (forall file_pos : disk -> Z,
       file_pos (fs (lseek (disk_sys 3) 3 10 SEEK_SET w1).2) = 10 ->
       file_pos (fs (writev (disk_sys 3) 32 10 3
                       [mk_iovec 100 3; mk_iovec 150 0; mk_iovec 200 5] 3
                       (mk_world 0 (mk_disk 10 4))).1.2) = 10).
Proof.
  apply (writev_failure_restores (disk_sys 3) 32 10 3
           [mk_iovec 100 3; mk_iovec 150 0; mk_iovec 200 5] 3
           (mk_world 0 (mk_disk 10 4))).
  vm_compute. reflexivity.
Defined.

End WritevSpec.

(** ** More properties of task_delete *)
Module TaskDeleteExtra.
Import TaskDelete TaskDeleteTerms TaskDeleteFacts.

(** X1.  A pid of zero signifies the calling task (lines 134-137): a call
    with pid 0 does exactly what a call with the running task's own pid
    does. *)
Theorem pid_zero_names_caller cfg env k :
  task_delete cfg env 0 k = task_delete cfg env (rtcb_pid k) k.
Proof.
  unfold task_delete, bind, get. simpl.
  destruct (rtcb_pid k =? 0); reflexivity.
Qed.

(** X2.  Only tasks and kernel threads should use this interface (lines
    151-153): where DEBUGASSERT is compiled in, a call whose target is a
    pthread stops in the assertion.  It has not taken the scheduler lock,
    has made no call, and has left the kernel, the target's flags included,
    as it was, whatever the cancellation state of the target. *)
Theorem pthread_target_stops_in_assertion cfg env pid k t :
  CONFIG_DEBUG cfg = true ->
  g_pidhash k !! resolve pid k = Some t ->
  is_pthread cfg t = true ->
  task_delete cfg env pid k = (AssertFailed, k, []).
Proof.
  intros D H P. apply (delete_assert_fails cfg env pid k t H).
  unfold guard_ok. by rewrite D, P.
Qed.

Lemma pthread_target_witness :
  task_delete (tizenrt true true) quiet 3
    (with_pidhash (<[3 := mk_tcb 5 0]> (g_pidhash four_tasks)) four_tasks)
  = (AssertFailed,
     with_pidhash (<[3 := mk_tcb 5 0]> (g_pidhash four_tasks)) four_tasks, []).
Proof.
  apply (pthread_target_stops_in_assertion (tizenrt true true) quiet 3
           (with_pidhash (<[3 := mk_tcb 5 0]> (g_pidhash four_tasks)) four_tasks)
           (mk_tcb 5 0));
    reflexivity.
Defined.

(** X3.  OK on success; or ERROR on failure with the errno variable set
    (lines 117-119).  A call that returns gives OK or ERROR and nothing
    else.  When it gives ERROR, either the pid is not registered and errno
    is ESRCH, or task_terminate has returned a negative [r] and errno is
    [-r] as an int; in both cases errno was set by this call. *)
Theorem error_return_sets_errno cfg env pid k v k' tr :
  task_delete cfg env pid k = (Returned v, k', tr) ->
  (v = OK \/ v = ERROR) /\
  (v = ERROR ->
     (g_pidhash k !! resolve pid k = None /\ errno k' = ESRCH cfg /\ tr = []) \/
     (exists r,
        (task_terminate_fx env (resolve pid k) false k).1 = r /\ r < 0 /\
        errno k' = int_wrap (- r) /\
        tr = [EvLock; EvUnlock; EvTerminate (resolve pid k) false])).
Proof.
  intros E.
  destruct (g_pidhash k !! resolve pid k) as [t|] eqn:H.
  2:{ rewrite delete_not_found in E by done. injection E as <- <- <-.
      split; [by right|]. intros _. left. auto. }
  destruct (guard_ok cfg t) eqn:G.
  2:{ rewrite (delete_assert_fails cfg env pid k t) in E by done. discriminate. }
  destruct (noncancelable cfg t) eqn:N.
  { rewrite (delete_disabled cfg env pid k t) in E by done.
    injection E as <- <- <-. split; [by left|]. discriminate. }
  destruct (CONFIG_CANCELLATION_POINTS cfg && deferred cfg t) eqn:D.
  { apply andb_true_iff in D as [C D].
    destruct (0 <? cpcount t) eqn:P.
    - rewrite (delete_deferred_blocked cfg env pid k t) in E by done.
      injection E as <- <- <-. split; [by left|]. discriminate.
    - rewrite (delete_deferred_idle cfg env pid k t) in E by done.
      injection E as <- <- <-. split; [by left|]. discriminate. }
  destruct (decide (resolve pid k = rtcb_pid k)) as [S|S].
  { rewrite (delete_self_exit cfg env pid k t) in E by done. discriminate. }
  rewrite (delete_terminate cfg env pid k t H G N D S) in E.
  destruct (task_terminate_fx env (resolve pid k) false k) as [r k1].
  destruct (Z.ltb_spec r 0); injection E as <- <- <-.
  - split; [by right|]. intros _. right. exists r. auto.
  - split; [by left|]. discriminate.
Qed.

Lemma error_return_witness :
  (ERROR = OK \/ ERROR = ERROR) /\
  (ERROR = ERROR ->
     (g_pidhash (four_tasks_run 7) !! resolve 5 (four_tasks_run 7) = None /\
      errno (with_errno 22 (four_tasks_run 7)) = ESRCH (tizenrt true true) /\
      [EvLock; EvUnlock; EvTerminate 5 false] = []) \/
     (exists r,
        (task_terminate_fx stubborn (resolve 5 (four_tasks_run 7)) false
           (four_tasks_run 7)).1 = r /\ r < 0 /\
        errno (with_errno 22 (four_tasks_run 7)) = int_wrap (- r) /\
        [EvLock; EvUnlock; EvTerminate 5 false]
        = [EvLock; EvUnlock; EvTerminate (resolve 5 (four_tasks_run 7)) false])).
Proof.
  apply (error_return_sets_errno (tizenrt true true) stubborn 5 (four_tasks_run 7)).
  reflexivity.
Defined.

(** X4.  The only thing task_delete itself writes into the table of tasks
    is the pending bit of its target (lines 175 and 191).  In a call during
    which neither the notifier nor task_terminate runs, the table is
    unchanged or differs only in that bit of the target: no task is added
    or removed, no other task is touched, the target's [cpcount] stays;
    the running task and the lock count are as on entry. *)
Theorem delete_writes_only_pending_bit cfg env pid k :
  calls is_notify (task_delete cfg env pid k).2 = 0%nat ->
  calls is_terminate (task_delete cfg env pid k).2 = 0%nat ->
  (g_pidhash (task_delete cfg env pid k).1.2 = g_pidhash k \/
   exists t,
     g_pidhash k !! resolve pid k = Some t /\
     g_pidhash (task_delete cfg env pid k).1.2
     = <[resolve pid k := mk_tcb (Z.lor (flags t) (TCB_FLAG_CANCEL_PENDING cfg))
                                 (cpcount t)]> (g_pidhash k)) /\
  rtcb_pid (task_delete cfg env pid k).1.2 = rtcb_pid k /\
  lockcount (task_delete cfg env pid k).1.2 = lockcount k.
Proof.
  destruct (g_pidhash k !! resolve pid k) as [t|] eqn:H.
  2:{ rewrite delete_not_found by done. simpl. auto. }
  destruct (guard_ok cfg t) eqn:G.
  2:{ rewrite (delete_assert_fails cfg env pid k t) by done. simpl. auto. }
  destruct (noncancelable cfg t) eqn:N.
  { rewrite (delete_disabled cfg env pid k t) by done. simpl.
    intros _ _. split; [right; by exists t | auto]. }
  destruct (CONFIG_CANCELLATION_POINTS cfg && deferred cfg t) eqn:D.
  { apply andb_true_iff in D as [C D].
    destruct (0 <? cpcount t) eqn:P.
    - rewrite (delete_deferred_blocked cfg env pid k t) by done. simpl.
      unfold calls. simpl. discriminate.
    - rewrite (delete_deferred_idle cfg env pid k t) by done. simpl.
      intros _ _. split; [right; by exists t | auto]. }
  destruct (decide (resolve pid k = rtcb_pid k)) as [S|S].
  { rewrite (delete_self_exit cfg env pid k t) by done. simpl. auto. }
  rewrite (delete_terminate cfg env pid k t H G N D S).
  destruct (task_terminate_fx env (resolve pid k) false k) as [r k1].
  destruct (r <? 0); simpl; unfold calls; simpl; discriminate.
Qed.

Lemma delete_writes_only_pending_bit_witness :
  (g_pidhash (task_delete (tizenrt true true) quiet 6 four_tasks).1.2
   = g_pidhash four_tasks \/
   exists t,
     g_pidhash four_tasks !! resolve 6 four_tasks = Some t /\
     g_pidhash (task_delete (tizenrt true true) quiet 6 four_tasks).1.2
     = <[resolve 6 four_tasks
         := mk_tcb (Z.lor (flags t) (TCB_FLAG_CANCEL_PENDING (tizenrt true true)))
                   (cpcount t)]> (g_pidhash four_tasks)) /\
  rtcb_pid (task_delete (tizenrt true true) quiet 6 four_tasks).1.2
  = rtcb_pid four_tasks /\
  lockcount (task_delete (tizenrt true true) quiet 6 four_tasks).1.2
  = lockcount four_tasks.
Proof.
  apply (delete_writes_only_pending_bit (tizenrt true true) quiet 6 four_tasks);
    reflexivity.
Defined.

(** X5.  The target is marked before it is woken, and it is woken with
    the scheduler locked (lines 191-197).  When task_delete notifies, the
    notifier runs in a kernel [kn] in which the target's pending bit is
    already set, the lock count is one above its value on entry and no
    other task has changed; task_delete then only drops the lock count of
    the kernel the notifier leaves. *)
Theorem notifier_runs_locked_after_marking cfg env pid k t :
  TCB_FLAG_CANCEL_PENDING cfg <> 0 ->
  g_pidhash k !! resolve pid k = Some t ->
  guard_ok cfg t = true ->
  noncancelable cfg t = false ->
  CONFIG_CANCELLATION_POINTS cfg = true ->
  deferred cfg t = true ->
  0 < cpcount t ->
  exists kn,
    pending_in cfg kn (resolve pid k) /\
    lockcount kn = lockcount k + 1 /\
    (forall q, q <> resolve pid k -> g_pidhash kn !! q = g_pidhash k !! q) /\
    (cpcount <$> g_pidhash kn !! resolve pid k) = Some (cpcount t) /\
    task_delete cfg env pid k
    = (Returned OK,
       with_lockcount
         (lockcount (notify_cancellation_fx env (resolve pid k) kn) - 1)
         (notify_cancellation_fx env (resolve pid k) kn),
       [EvLock; EvNotify (resolve pid k); EvUnlock]).
Proof.
  intros HP H G N C D P. apply Z.ltb_lt in P.
  exists (at_notify cfg pid k t). repeat split.
  - exists (mark_pending cfg t). unfold at_notify. simpl.
    split; [apply lookup_insert_eq | by apply mark_pending_pending].
  - intros q Hq. unfold at_notify. simpl. by rewrite lookup_insert_ne.
  - unfold at_notify. simpl. by rewrite lookup_insert_eq.
  - by apply delete_deferred_blocked.
Qed.

Lemma notifier_runs_locked_witness :
  exists kn,
    pending_in (tizenrt true true) kn (resolve 7 four_tasks) /\
    lockcount kn = lockcount four_tasks + 1 /\
    (forall q, q <> resolve 7 four_tasks ->
               g_pidhash kn !! q = g_pidhash four_tasks !! q) /\
    (cpcount <$> g_pidhash kn !! resolve 7 four_tasks) = Some (cpcount (mk_tcb 8 2)) /\
    task_delete (tizenrt true true) quiet 7 four_tasks
    = (Returned OK,
       with_lockcount
         (lockcount (notify_cancellation_fx quiet (resolve 7 four_tasks) kn) - 1)
         (notify_cancellation_fx quiet (resolve 7 four_tasks) kn),
       [EvLock; EvNotify (resolve 7 four_tasks); EvUnlock]).
Proof.
  apply (notifier_runs_locked_after_marking (tizenrt true true) quiet 7
           four_tasks (mk_tcb 8 2));
    [discriminate | reflexivity | reflexivity | reflexivity | reflexivity
    | reflexivity | simpl; lia].
Defined.

(** X6.  What task_delete never does (lines 104-107, 180, 205-217).  In
    every call, whatever the kernel and the collaborators: task_terminate
    is called only on the target, only with [false], and never on the
    running task ("the logic in this function only deletes non-running
    tasks"); exit is called only when the target is the running task, with
    EXIT_SUCCESS; the notifier is called only on the target and only in a
    build with cancellation points. *)
Theorem delete_calls_keep_to_rules cfg env pid k :
  Forall (call_allowed cfg (resolve pid k) (rtcb_pid k))
         (task_delete cfg env pid k).2.
Proof.
  destruct (g_pidhash k !! resolve pid k) as [t|] eqn:H.
  2:{ rewrite delete_not_found by done. constructor. }
  destruct (guard_ok cfg t) eqn:G.
  2:{ rewrite (delete_assert_fails cfg env pid k t) by done. constructor. }
  destruct (noncancelable cfg t) eqn:N.
  { rewrite (delete_disabled cfg env pid k t) by done.
    repeat constructor. }
  destruct (CONFIG_CANCELLATION_POINTS cfg && deferred cfg t) eqn:D.
  { apply andb_true_iff in D as [C D].
    destruct (0 <? cpcount t) eqn:P.
    - rewrite (delete_deferred_blocked cfg env pid k t) by done.
      repeat constructor; simpl; auto.
    - rewrite (delete_deferred_idle cfg env pid k t) by done.
      repeat constructor. }
  destruct (decide (resolve pid k = rtcb_pid k)) as [S|S].
  { rewrite (delete_self_exit cfg env pid k t) by done.
    repeat constructor; simpl; auto. }
  rewrite (delete_terminate cfg env pid k t H G N D S).
  destruct (task_terminate_fx env (resolve pid k) false k) as [r k1].
  destruct (r <? 0); repeat constructor; simpl; auto.
Qed.

(** X7.  Deleting a task that is already gone (lines 141-149: "the task
    has probably already exited").  When a call has ended a task through
    task_terminate and returned OK, and task_terminate keeps its word that
    the task is then no longer registered, a second call with the same pid
    returns ERROR with errno ESRCH and does nothing else. *)
Theorem second_delete_reports_ESRCH cfg env pid k k1 tr :
  terminator_removes env ->
  task_delete cfg env pid k = (Returned OK, k1, tr) ->
  calls is_terminate tr = 1%nat ->
  task_delete cfg env pid k1 = (Returned ERROR, with_errno (ESRCH cfg) k1, []).
Proof.
  intros HT E Hc.
  destruct (g_pidhash k !! resolve pid k) as [t|] eqn:H.
  2:{ rewrite delete_not_found in E by done. injection E as _ <- <-. discriminate. }
  destruct (guard_ok cfg t) eqn:G.
  2:{ rewrite (delete_assert_fails cfg env pid k t) in E by done. discriminate. }
  destruct (noncancelable cfg t) eqn:N.
  { rewrite (delete_disabled cfg env pid k t) in E by done.
    injection E as <- <-. discriminate. }
  destruct (CONFIG_CANCELLATION_POINTS cfg && deferred cfg t) eqn:D.
  { apply andb_true_iff in D as [C D].
    destruct (0 <? cpcount t) eqn:P.
    - rewrite (delete_deferred_blocked cfg env pid k t) in E by done.
      injection E as <- <-. discriminate.
    - rewrite (delete_deferred_idle cfg env pid k t) in E by done.
      injection E as <- <-. discriminate. }
  destruct (decide (resolve pid k = rtcb_pid k)) as [S|S].
  { rewrite (delete_self_exit cfg env pid k t) in E by done. discriminate. }
  rewrite (delete_terminate cfg env pid k t H G N D S) in E.
  specialize (HT (resolve pid k) false k).
  destruct (task_terminate_fx env (resolve pid k) false k) as [r k'].
  simpl in HT.
  destruct (Z.ltb_spec r 0); [discriminate E|].
  injection E as <- <-. destruct (HT ltac:(lia)) as [Gone Same].
  apply delete_not_found. unfold resolve in *. by rewrite Same.
Qed.

Lemma second_delete_witness :
  task_delete (tizenrt true true) quiet 5
    (with_pidhash (delete 5 (g_pidhash four_tasks)) (four_tasks_run 7))
  = (Returned ERROR,
     with_errno (ESRCH (tizenrt true true))
       (with_pidhash (delete 5 (g_pidhash four_tasks)) (four_tasks_run 7)),
     []).
Proof.
  apply (second_delete_reports_ESRCH (tizenrt true true) quiet 5 (four_tasks_run 7)
           (with_pidhash (delete 5 (g_pidhash four_tasks)) (four_tasks_run 7))
           [EvLock; EvUnlock; EvTerminate 5 false]).
  - intros p b k _. simpl. split; [apply lookup_delete_eq | reflexivity].
  - reflexivity.
  - reflexivity.
Defined.

(** X8.  Without cancellation points the deferred bit has no effect
    (lines 180-200 are compiled out).  In such a build a cancelable target
    is never marked pending, whatever its cancellation type: when it is
    the running task the call ends in exit(EXIT_SUCCESS) with the kernel
    as it was; when it is another task, task_terminate(pid, false) is
    called once, on the kernel as it was on entry. *)
Theorem cancelable_target_without_cancellation_points cfg env pid k t :
  CONFIG_CANCELLATION_POINTS cfg = false ->
  g_pidhash k !! resolve pid k = Some t ->
  guard_ok cfg t = true ->
  noncancelable cfg t = false ->
  (resolve pid k = rtcb_pid k ->
     task_delete cfg env pid k
     = (Exited EXIT_SUCCESS, k, [EvLock; EvUnlock; EvExit EXIT_SUCCESS])) /\
  (resolve pid k <> rtcb_pid k ->
     (task_delete cfg env pid k).2
       = [EvLock; EvUnlock; EvTerminate (resolve pid k) false] /\
     g_pidhash (task_delete cfg env pid k).1.2
       = g_pidhash (task_terminate_fx env (resolve pid k) false k).2).
Proof.
  intros C H G N.
  assert (D : CONFIG_CANCELLATION_POINTS cfg && deferred cfg t = false)
    by (by rewrite C).
  split; intros S.
  - by apply (delete_self_exit cfg env pid k t).
  - rewrite (delete_terminate cfg env pid k t H G N D S).
    destruct (task_terminate_fx env (resolve pid k) false k) as [r k1].
    destruct (r <? 0); simpl; auto.
Qed.

Lemma cancelable_target_without_cancellation_points_witness :
  (resolve 7 four_tasks = rtcb_pid four_tasks ->
     task_delete (tizenrt false true) stubborn 7 four_tasks
     = (Exited EXIT_SUCCESS, four_tasks, [EvLock; EvUnlock; EvExit EXIT_SUCCESS])) /\
  (resolve 7 four_tasks <> rtcb_pid four_tasks ->
     (task_delete (tizenrt false true) stubborn 7 four_tasks).2
       = [EvLock; EvUnlock; EvTerminate (resolve 7 four_tasks) false] /\
     g_pidhash (task_delete (tizenrt false true) stubborn 7 four_tasks).1.2
       = g_pidhash (task_terminate_fx stubborn (resolve 7 four_tasks) false
                      four_tasks).2).
Proof.
  apply (cancelable_target_without_cancellation_points (tizenrt false true)
           stubborn 7 four_tasks (mk_tcb 8 2));
    reflexivity.
Defined.

End TaskDeleteExtra.

(** ** More properties of writev *)
Module WritevExtra.
Import Writev WritevTerms WritevFacts.

(** *** Every call is on the descriptor and offers bytes *)

Lemma write_area_calls_on {F} (sys : syscalls F) bits fildes pos
    fuel buffer remaining ntotal w :
  0 < remaining ->
  Forall (call_on fildes)
    (write_area sys bits fuel fildes pos buffer remaining ntotal w).2.
Proof.
  revert buffer remaining ntotal w.
  induction fuel as [|fuel IH]; intros buffer remaining ntotal w Hr; simpl;
    [constructor|].
  destruct (write sys fildes buffer remaining w) as [r w1].
  destruct (r <? 0).
  - destruct (lseek sys fildes pos SEEK_SET w1) as [x w2]. simpl.
    repeat constructor; simpl; auto.
  - destruct (Z.ltb_spec 0 (uwrap bits (remaining - r))) as [Hm|Hm].
    + specialize (IH (buffer + r) (uwrap bits (remaining - r))
                     (swrap bits (ntotal + r)) w1 Hm).
      destruct (write_area sys bits fuel fildes pos (buffer + r)
                  (uwrap bits (remaining - r)) (swrap bits (ntotal + r)) w1)
        as [[o w3] tr].
      simpl in *. constructor; [simpl; auto | exact IH].
    + simpl. repeat constructor; simpl; auto.
Qed.

Lemma each_iov_calls_on {F} (sys : syscalls F) bits fildes pos
    fuel iov count i ntotal w :
  Forall (call_on fildes) (each_iov sys bits fuel fildes pos iov count i ntotal w).2.
Proof.
  revert i ntotal w.
  induction count as [|count IH]; intros i ntotal w; simpl; [constructor|].
  destruct (iov !! i) as [v|]; [|constructor].
  destruct (Z.ltb_spec 0 (iov_len v)) as [Hv|Hv]; [|apply IH].
  pose proof (write_area_calls_on sys bits fildes pos fuel (iov_base v)
                (iov_len v) ntotal w Hv) as A.
  destruct (write_area sys bits fuel fildes pos (iov_base v) (iov_len v) ntotal w)
    as [[[o|n] w1] tr]; simpl in *; [exact A|].
  specialize (IH (S i) n w1).
  destruct (each_iov sys bits fuel fildes pos iov count (S i) n w1) as [[o2 w2] tr2].
  simpl in *. by apply Forall_app.
Qed.

(** X9.  writev needs a descriptor whose position can be read (lines
    109-114).  When lseek(fildes, 0, SEEK_CUR) returns -1, writev returns
    ERROR at once: it looks at no entry of the vector and calls write not
    once, and errno is what lseek left. *)
Theorem writev_needs_a_position {F} (sys : syscalls F) bits fuel fildes iov iovcnt w :
  (lseek sys fildes 0 SEEK_CUR w).1 = -1 ->
  writev sys bits fuel fildes iov iovcnt w
  = (Done ERROR, (lseek sys fildes 0 SEEK_CUR w).2, [EvLseek fildes 0 SEEK_CUR (-1)]).
Proof.
  intros H. unfold writev.
  destruct (lseek sys fildes 0 SEEK_CUR w) as [p w0]. simpl in *. subst p.
  reflexivity.
Qed.

Lemma writev_needs_a_position_witness :
  writev pipe_sys 32 10 3 [mk_iovec 100 3; mk_iovec 200 5] 2
    (mk_world 0 (mk_disk 0 0))
  = (Done ERROR, mk_world ESPIPE (mk_disk 0 0), [EvLseek 3 0 SEEK_CUR (-1)]).
Proof.
  apply (writev_needs_a_position pipe_sys 32 10 3
           [mk_iovec 100 3; mk_iovec 200 5] 2 (mk_world 0 (mk_disk 0 0))).
  reflexivity.
Defined.

(** X10.  A count of entries that is zero or negative is not refused (line
    118): once the position has been read, the for loop is not entered and
    writev returns 0, whatever the vector holds; it makes no other call. *)
Theorem writev_without_entries {F} (sys : syscalls F) bits fuel fildes iov iovcnt w :
  iovcnt <= 0 ->
  (lseek sys fildes 0 SEEK_CUR w).1 <> -1 ->
  writev sys bits fuel fildes iov iovcnt w
  = (Done 0, (lseek sys fildes 0 SEEK_CUR w).2,
     [EvLseek fildes 0 SEEK_CUR (lseek sys fildes 0 SEEK_CUR w).1]).
Proof.
  intros Hc Hp. unfold writev.
  destruct (lseek sys fildes 0 SEEK_CUR w) as [p w0]. simpl in *.
  apply Z.eqb_neq in Hp. rewrite Hp.
  replace (Z.to_nat iovcnt) with 0%nat by lia. reflexivity.
Qed.

Lemma writev_without_entries_witness :
  writev roomy_sys 32 10 3 [mk_iovec 100 3] (-1) (mk_world 7 (mk_disk 10 0))
  = (Done 0, mk_world 0 (mk_disk 10 0), [EvLseek 3 0 SEEK_CUR 10]).
Proof.
  apply (writev_without_entries roomy_sys 32 10 3 [mk_iovec 100 3] (-1)
           (mk_world 7 (mk_disk 10 0))).
  - lia.
  - simpl. lia.
Defined.

(** X11.  Zero-length writes are ignored (lines 119-121 and 156): in
    every run, whatever write and lseek do and return, every call writev
    makes is on the descriptor it was given, and no write call ever offers
    zero bytes. *)
Theorem writev_calls_on_descriptor {F} (sys : syscalls F) bits fuel fildes iov iovcnt w :
  Forall (call_on fildes) (writev sys bits fuel fildes iov iovcnt w).2.
Proof.
  unfold writev.
  destruct (lseek sys fildes 0 SEEK_CUR w) as [p w0].
  destruct (p =? -1); simpl; [repeat constructor|].
  pose proof (each_iov_calls_on sys bits fildes p fuel iov (Z.to_nat iovcnt) 0 0 w0) as A.
  destruct (each_iov sys bits fuel fildes p iov (Z.to_nat iovcnt) 0 0 w0)
    as [[o w1] tr].
  simpl in *. constructor; [reflexivity | exact A].
Qed.

(** *** Every write stays inside an area of the vector *)
Section Bounds.

Context {F : Type} (sys : syscalls F) (bits : Z) (fildes pos : Z).
(** write never reports more bytes than it was offered. *)
Hypothesis write_bounded :
  forall buffer n w, 0 < n -> (write sys fildes buffer n w).1 <= n.

Lemma write_area_within iov count j v fuel buffer remaining ntotal w :
  (j < count)%nat ->
  iov !! j = Some v ->
  iov_len v < 2 ^ bits ->
  iov_base v <= buffer ->
  0 < remaining ->
  buffer + remaining = iov_base v + iov_len v ->
  Forall (within_areas iov count)
    (write_area sys bits fuel fildes pos buffer remaining ntotal w).2.
Proof.
  intros Hj Hv Hsz. revert buffer remaining ntotal w.
  induction fuel as [|fuel IH]; intros buffer remaining ntotal w Hb Hr He; simpl;
    [constructor|].
  pose proof (write_bounded buffer remaining w Hr) as Hw.
  destruct (write sys fildes buffer remaining w) as [r w1]. simpl in Hw.
  assert (Hev : within_areas iov count
                  (EvWrite fildes buffer remaining r (get_errno w1))).
  { exists j, v. auto. }
  destruct (Z.ltb_spec r 0) as [Hneg|Hpos].
  - destruct (lseek sys fildes pos SEEK_SET w1) as [x w2]. simpl.
    repeat constructor. exact Hev.
  - rewrite (uwrap_id bits (remaining - r)) by lia.
    destruct (Z.ltb_spec 0 (remaining - r)) as [Hm|Hm].
    + specialize (IH (buffer + r) (remaining - r) (swrap bits (ntotal + r)) w1
                     ltac:(lia) Hm ltac:(lia)).
      destruct (write_area sys bits fuel fildes pos (buffer + r) (remaining - r)
                  (swrap bits (ntotal + r)) w1) as [[o w3] tr].
      simpl in *. constructor; [exact Hev | exact IH].
    + simpl. repeat constructor. exact Hev.
Qed.

Lemma each_iov_within iov total fuel count i ntotal w :
  (i + count <= total)%nat ->
  Forall (fun v => 0 <= iov_len v < 2 ^ bits) iov ->
  Forall (within_areas iov total)
    (each_iov sys bits fuel fildes pos iov count i ntotal w).2.
Proof.
  intros Ht Hsz. revert i ntotal w Ht.
  induction count as [|count IH]; intros i ntotal w Ht; simpl; [constructor|].
  destruct (iov !! i) as [v|] eqn:Hv; [|constructor].
  destruct (Z.ltb_spec 0 (iov_len v)) as [Hl|Hl]; [|apply IH; lia].
  pose proof (proj1 (Forall_lookup _ _) Hsz i v Hv) as Hvsz. simpl in Hvsz.
  pose proof (write_area_within iov total i v fuel (iov_base v) (iov_len v) ntotal w
                ltac:(lia) Hv ltac:(lia) ltac:(lia) Hl eq_refl) as A.
  destruct (write_area sys bits fuel fildes pos (iov_base v) (iov_len v) ntotal w)
    as [[[o|n] w1] tr]; simpl in *; [exact A|].
  specialize (IH (S i) n w1 ltac:(lia)).
  destruct (each_iov sys bits fuel fildes pos iov count (S i) n w1) as [[o2 w2] tr2].
  simpl in *. by apply Forall_app.
Qed.

End Bounds.

(** X12.  writev never offers write a byte from outside the caller's
    areas (lines 122-123 and 153-154).  Provided write never reports more
    bytes than it was offered, in every run - whether it succeeds, fails or
    is cut short - each write call offers the tail of one of the first
    [iovcnt] areas: it starts at or after the base of the area and ends
    exactly at its end. *)
Theorem writev_stays_within_areas {F} (sys : syscalls F) bits fuel fildes iov iovcnt w :
  (forall buffer n w1, 0 < n -> (write sys fildes buffer n w1).1 <= n) ->
  Forall (fun v => 0 <= iov_len v < 2 ^ bits) iov ->
  Forall (within_areas iov (Z.to_nat iovcnt))
         (writev sys bits fuel fildes iov iovcnt w).2.
Proof.
  intros Hw Hsz. unfold writev.
  destruct (lseek sys fildes 0 SEEK_CUR w) as [p w0].
  destruct (p =? -1); simpl; [repeat constructor|].
  pose proof (each_iov_within sys bits fildes p Hw iov (Z.to_nat iovcnt) fuel
                (Z.to_nat iovcnt) 0 0 w0 ltac:(lia) Hsz) as A.
  destruct (each_iov sys bits fuel fildes p iov (Z.to_nat iovcnt) 0 0 w0)
    as [[o w1] tr].
  simpl in *. constructor; [exact I | exact A].
Qed.

Lemma writev_stays_within_areas_witness :
  Forall (within_areas [mk_iovec 100 3; mk_iovec 150 0; mk_iovec 200 5] (Z.to_nat 3))
         (writev (disk_sys 3) 32 10 3
            [mk_iovec 100 3; mk_iovec 150 0; mk_iovec 200 5] 3
            (mk_world 0 (mk_disk 10 4))).2.
Proof.
  apply (writev_stays_within_areas (disk_sys 3) 32 10 3
           [mk_iovec 100 3; mk_iovec 150 0; mk_iovec 200 5] 3
           (mk_world 0 (mk_disk 10 4))).
  - intros buffer n w1 Hn. simpl. unfold disk_write.
    destruct (room (fs w1) <=? 0); simpl; lia.
  - repeat constructor; simpl; lia.
Defined.

(** *** The sum as an ssize_t *)

Lemma swrap_swrap_add bits a b :
  0 < bits -> swrap bits (swrap bits a + b) = swrap bits (a + b).
Proof.
  intros Hb. unfold swrap. f_equal.
  replace ((a + 2 ^ (bits - 1)) mod 2 ^ bits - 2 ^ (bits - 1) + b + 2 ^ (bits - 1))
    with ((a + 2 ^ (bits - 1)) mod 2 ^ bits + b) by lia.
  rewrite Zplus_mod_idemp_l. f_equal. lia.
Qed.

Lemma swrap_idem bits a : 0 < bits -> swrap bits (swrap bits a) = swrap bits a.
Proof.
  intros Hb. rewrite <- (Z.add_0_r (swrap bits a)) at 1.
  rewrite swrap_swrap_add by done. by rewrite Z.add_0_r.
Qed.

Section Wrapped.

Context {F : Type} (sys : syscalls F) (bits : Z) (fildes pos : Z).
Hypothesis bits_pos : 0 < bits.
Hypothesis write_progress :
  forall buffer n w, 0 < n -> 0 < (write sys fildes buffer n w).1 <= n.

Lemma write_area_wraps fuel buffer remaining ntotal w :
  0 < remaining < 2 ^ bits ->
  (Z.to_nat remaining <= fuel)%nat ->
  exists w' tr,
    write_area sys bits fuel fildes pos buffer remaining ntotal w
      = (inr (swrap bits (ntotal + remaining)), w', tr) /\
    transferred tr = addresses buffer remaining.
Proof.
  revert buffer remaining ntotal w.
  induction fuel as [|fuel IH]; intros buffer remaining ntotal w Hr Hf; [lia|].
  pose proof (write_progress buffer remaining w (proj1 Hr)) as Hw.
  simpl. destruct (write sys fildes buffer remaining w) as [r w1]. simpl in Hw.
  destruct (Z.ltb_spec r 0) as [?|_]; [lia|].
  rewrite (uwrap_id bits (remaining - r)) by lia.
  destruct (Z.ltb_spec 0 (remaining - r)) as [Hm|Hm].
  - destruct (IH (buffer + r) (remaining - r) (swrap bits (ntotal + r)) w1)
      as (w' & tr & E & T); try lia.
    rewrite E. exists w', (EvWrite fildes buffer remaining r (get_errno w1) :: tr).
    split.
    + rewrite swrap_swrap_add by done.
      by replace (ntotal + r + (remaining - r)) with (ntotal + remaining) by lia.
    + simpl. rewrite T, <- addresses_split by lia. f_equal. lia.
  - assert (r = remaining) as -> by lia.
    eexists w1, _. split; [reflexivity|]. simpl. apply app_nil_r.
Qed.

Lemma each_iov_wraps fuel iov count i ntotal w :
  (i + count <= length iov)%nat ->
  Forall (entry_ok bits fuel) (take count (drop i iov)) ->
  swrap bits ntotal = ntotal ->
  exists w' tr,
    each_iov sys bits fuel fildes pos iov count i ntotal w
      = (Done (swrap bits (ntotal + total_len (take count (drop i iov)))), w', tr) /\
    transferred tr = gathered (take count (drop i iov)).
Proof.
  revert i ntotal w.
  induction count as [|count IH]; intros i ntotal w Hlen Hok Hn.
  { exists w, []. simpl. by rewrite Z.add_0_r, Hn. }
  destruct (lookup_lt_is_Some_2 iov i) as [v Hv]; [lia|].
  rewrite (drop_S _ _ _ Hv) in *. simpl in *.
  apply Forall_cons in Hok as [[Hv1 Hv2] Hok].
  rewrite Hv.
  destruct (Z.ltb_spec 0 (iov_len v)) as [Hpos|Hzero].
  - destruct (write_area_wraps fuel (iov_base v) (iov_len v) ntotal w)
      as (w1 & tr1 & E1 & T1); try lia.
    rewrite E1.
    destruct (IH (S i) (swrap bits (ntotal + iov_len v)) w1)
      as (w2 & tr2 & E2 & T2); try lia; try done.
    { by apply swrap_idem. }
    rewrite E2. exists w2, (tr1 ++ tr2). split.
    + rewrite swrap_swrap_add by done. by rewrite Z.add_assoc.
    + by rewrite transferred_app, T1, T2.
  - assert (iov_len v = 0) as Hz by lia.
    destruct (IH (S i) ntotal w) as (w2 & tr2 & E2 & T2); try lia; try done.
    rewrite E2. exists w2, tr2. split.
    + by rewrite Hz, Z.add_0_l.
    + rewrite T2, Hz. by rewrite addresses_nonpos.
Qed.

End Wrapped.

(** X13.  writev has no test for a sum of lengths above SSIZE_MAX (lines
    118-160; the header comment, lines 84-85, says that the operation then
    fails and transfers nothing).  When the position can be read and
    every write takes at least one and at most the offered bytes, writev
    transfers every byte of every area, in order, however large the sum,
    and returns the sum as [ntotal], an ssize_t, holds it: reduced modulo
    2^bits into the signed range. *)
Theorem writev_transfers_whatever_the_sum {F} (sys : syscalls F)
    bits fuel fildes iov iovcnt w :
  0 < bits ->
  (lseek sys fildes 0 SEEK_CUR w).1 <> -1 ->
  iovcnt <= Z.of_nat (length iov) ->
  (forall buffer n w1, 0 < n -> 0 < (write sys fildes buffer n w1).1 <= n) ->
  Forall (entry_ok bits fuel) (take (Z.to_nat iovcnt) iov) ->
  exists w' tr,
    writev sys bits fuel fildes iov iovcnt w
      = (Done (swrap bits (total_len (take (Z.to_nat iovcnt) iov))), w',
         EvLseek fildes 0 SEEK_CUR (lseek sys fildes 0 SEEK_CUR w).1 :: tr) /\
    transferred tr = gathered (take (Z.to_nat iovcnt) iov).
Proof.
  intros Hb Hpos Hcnt Hw Hok. unfold writev.
  destruct (lseek sys fildes 0 SEEK_CUR w) as [p w0]. simpl in *.
  apply Z.eqb_neq in Hpos. rewrite Hpos.
  destruct (each_iov_wraps sys bits fildes p Hb Hw fuel iov (Z.to_nat iovcnt) 0 0 w0)
    as (w' & tr & E & T); try lia; try done.
  { apply swrap_id; [done|]. pose proof (Z.pow_pos_nonneg 2 (bits - 1)). lia. }
  change (drop 0 iov) with iov in *. rewrite E. exists w', tr. auto.
Qed.

Lemma writev_transfers_whatever_the_sum_witness :
  exists w' tr,
    writev roomy_sys 16 (Z.to_nat 20000) 3
        [mk_iovec 100 20000; mk_iovec 30000 20000] 2 (mk_world 0 (mk_disk 0 0))
      = (Done (swrap 16 (total_len (take (Z.to_nat 2)
                                      [mk_iovec 100 20000; mk_iovec 30000 20000]))),
         w',
         EvLseek 3 0 SEEK_CUR
           (lseek roomy_sys 3 0 SEEK_CUR (mk_world 0 (mk_disk 0 0))).1 :: tr) /\
    transferred tr
    = gathered (take (Z.to_nat 2) [mk_iovec 100 20000; mk_iovec 30000 20000]).
Proof.
  apply (writev_transfers_whatever_the_sum roomy_sys 16 (Z.to_nat 20000) 3
           [mk_iovec 100 20000; mk_iovec 30000 20000] 2 (mk_world 0 (mk_disk 0 0))).
  - lia.
  - simpl. lia.
  - simpl. lia.
  - intros buffer n w1 Hn. simpl. lia.
  - repeat constructor; simpl; lia.
Defined.

(** *** Runs whose write calls have all taken everything *)
Section Whole.

Context {F : Type} (sys : syscalls F) (bits : Z) (fildes pos : Z).

Lemma writes_whole_app tr1 tr2 :
  writes_whole (tr1 ++ tr2) = writes_whole tr1 && writes_whole tr2.
Proof. unfold writes_whole. apply forallb_app. Qed.

Lemma write_calls_app tr1 tr2 :
  write_calls (tr1 ++ tr2) = write_calls tr1 ++ write_calls tr2.
Proof. unfold write_calls. apply flat_map_app. Qed.

Lemma write_area_whole fuel buffer remaining ntotal w :
  0 < remaining ->
  writes_whole
    (write_area sys bits (S fuel) fildes pos buffer remaining ntotal w).2 = true ->
  exists n w',
    write_area sys bits (S fuel) fildes pos buffer remaining ntotal w
    = (inr n, w',
       [EvWrite fildes buffer remaining remaining
          (get_errno (write sys fildes buffer remaining w).2)]).
Proof.
  intros Hr Hrun. simpl in *.
  destruct (write sys fildes buffer remaining w) as [r w1].
  (* the first write call of the run has taken everything *)
  assert (Hw : r = remaining).
  { destruct (r <? 0).
    - destruct (lseek sys fildes pos SEEK_SET w1) as [x w2]. simpl in Hrun.
      apply andb_true_iff in Hrun as [Hrun _]. lia.
    - destruct (0 <? uwrap bits (remaining - r)).
      + destruct (write_area sys bits fuel fildes pos (buffer + r)
                    (uwrap bits (remaining - r)) (swrap bits (ntotal + r)) w1)
          as [[o w3] tr].
        simpl in Hrun. apply andb_true_iff in Hrun as [Hrun _]. lia.
      + simpl in Hrun. apply andb_true_iff in Hrun as [Hrun _]. lia. }
  subst r. simpl.
  destruct (Z.ltb_spec remaining 0); [lia|].
  rewrite Z.sub_diag. unfold uwrap. rewrite Zmod_0_l. simpl. eauto.
Qed.

Lemma each_iov_whole fuel iov count i ntotal w :
  (i + count <= length iov)%nat ->
  writes_whole
    (each_iov sys bits (S fuel) fildes pos iov count i ntotal w).2 = true ->
  exists n w' tr,
    each_iov sys bits (S fuel) fildes pos iov count i ntotal w = (Done n, w', tr) /\
    write_calls tr
    = map (fun v => (iov_base v, iov_len v)) (nonempty (take count (drop i iov))).
Proof.
  revert i ntotal w.
  induction count as [|count IH]; intros i ntotal w Hlen Hrun.
  { exists ntotal, w, []. auto. }
  destruct (lookup_lt_is_Some_2 iov i) as [v Hv]; [lia|].
  rewrite (drop_S _ _ _ Hv).
  cbn [each_iov take nonempty List.filter] in *. rewrite Hv in *.
  destruct (Z.ltb_spec 0 (iov_len v)) as [Hpos|Hzero].
  - destruct (write_area sys bits (S fuel) fildes pos (iov_base v) (iov_len v)
                ntotal w) as [[on w1] tr1] eqn:E1.
    assert (Hrun1 : writes_whole tr1 = true).
    { destruct on as [o|n]; [exact Hrun|].
      destruct (each_iov sys bits (S fuel) fildes pos iov count (S i) n w1)
        as [[o2 w2] tr2].
      simpl in Hrun. rewrite writes_whole_app in Hrun.
      by apply andb_true_iff in Hrun as [? _]. }
    destruct (write_area_whole fuel (iov_base v) (iov_len v) ntotal w Hpos)
      as (n1 & w1' & E1').
    { by rewrite E1. }
    rewrite E1 in E1'. injection E1' as -> -> ->.
    destruct (each_iov sys bits (S fuel) fildes pos iov count (S i) n1 w1')
      as [[o2 w2] tr2] eqn:E2.
    simpl in Hrun. apply andb_true_iff in Hrun as [_ Hrun2].
    destruct (IH (S i) n1 w1' ltac:(lia)) as (n2 & w2' & tr2' & E2' & C2).
    { by rewrite E2. }
    rewrite E2 in E2'. injection E2' as -> -> ->.
    eexists n2, w2', _. split; [reflexivity|].
    rewrite write_calls_app, C2. reflexivity.
  - destruct (IH (S i) ntotal w ltac:(lia) Hrun) as (n2 & w2 & tr2 & E2 & C2).
    rewrite E2. exists n2, w2, tr2. auto.
Qed.

End Whole.

(** X14.  The gather itself (lines 118-158).  Take a run in which the
    position could be read, the lengths of the first [iovcnt] areas are at
    most SSIZE_MAX (so that write can report them), and every write call
    writev made has taken all the bytes it was offered.  In that run
    writev has made exactly one write call for each area that is not
    empty, in the order of the vector, each with the base and the full
    length of its area; empty areas got no call, and writev has returned. *)
Theorem writev_one_write_per_area {F} (sys : syscalls F)
    bits fuel fildes iov iovcnt w :
  (lseek sys fildes 0 SEEK_CUR w).1 <> -1 ->
  iovcnt <= Z.of_nat (length iov) ->
  Forall (fun v => 0 <= iov_len v <= SSIZE_MAX bits) (take (Z.to_nat iovcnt) iov) ->
  writes_whole (writev sys bits (S fuel) fildes iov iovcnt w).2 = true ->
  exists n w' tr,
    writev sys bits (S fuel) fildes iov iovcnt w
      = (Done n, w',
         EvLseek fildes 0 SEEK_CUR (lseek sys fildes 0 SEEK_CUR w).1 :: tr) /\
    write_calls tr
    = map (fun v => (iov_base v, iov_len v))
          (nonempty (take (Z.to_nat iovcnt) iov)) /\
    Forall (fun c => 0 < c.2 <= SSIZE_MAX bits) (write_calls tr).
Proof.
  intros Hpos Hcnt Hsz Hrun. unfold writev in *.
  destruct (lseek sys fildes 0 SEEK_CUR w) as [p w0]. simpl in Hpos.
  apply Z.eqb_neq in Hpos. rewrite Hpos in *.
  destruct (each_iov sys bits (S fuel) fildes p iov (Z.to_nat iovcnt) 0 0 w0)
    as [[o w1] tr] eqn:E.
  simpl in Hrun.
  destruct (each_iov_whole sys bits fildes p fuel iov (Z.to_nat iovcnt) 0 0 w0)
    as (n & w' & tr' & E' & C); [lia | by rewrite E |].
  change (drop 0 iov) with iov in *. rewrite E in E'. injection E' as -> -> ->.
  exists n, w', tr'. split; [reflexivity|]. split; [exact C|].
  rewrite C. apply Forall_forall. intros c Hc.
  apply list_elem_of_fmap in Hc as (v & -> & Hv). simpl.
  unfold nonempty in Hv. apply list_elem_of_In, filter_In in Hv as [Hin Hl].
  apply list_elem_of_In in Hin.
  pose proof (proj1 (Forall_forall _ _) Hsz v Hin) as Hb. simpl in Hb.
  apply Z.ltb_lt in Hl. lia.
Qed.

(** A run on a device with room for a hundred bytes, whose write takes up
    to a thousand bytes a call. *)
Lemma writev_one_write_per_area_witness :
  exists n w' tr,
    writev (disk_sys 1000) 32 1 3
        [mk_iovec 100 3; mk_iovec 150 0; mk_iovec 200 5; mk_iovec 300 7] 3
        (mk_world 0 (mk_disk 10 100))
      = (Done n, w',
         EvLseek 3 0 SEEK_CUR
           (lseek (disk_sys 1000) 3 0 SEEK_CUR (mk_world 0 (mk_disk 10 100))).1 :: tr) /\
    write_calls tr
    = map (fun v => (iov_base v, iov_len v))
          (nonempty (take (Z.to_nat 3)
             [mk_iovec 100 3; mk_iovec 150 0; mk_iovec 200 5; mk_iovec 300 7])) /\
    Forall (fun c => 0 < c.2 <= SSIZE_MAX 32) (write_calls tr).
Proof.
  apply (writev_one_write_per_area (disk_sys 1000) 32 0 3
           [mk_iovec 100 3; mk_iovec 150 0; mk_iovec 200 5; mk_iovec 300 7] 3
           (mk_world 0 (mk_disk 10 100))).
  - simpl. lia.
  - simpl. lia.
  - repeat constructor; simpl; unfold SSIZE_MAX; simpl; lia.
  - reflexivity.
Defined.

(** X15.  The result of the lseek that sets the position back is ignored
    (lines 137-146).  After a failed write writev returns ERROR with the
    errno of that write, whatever this lseek does: when it fails too (its
    result [x] is -1 and it has set errno), the caller still sees the
    write's errno, and the files are left as this lseek left them, with no
    further call. *)
Theorem writev_failure_hides_lseek {F} (sys : syscalls F)
    bits fuel fildes iov iovcnt w :
  write_failed (writev sys bits fuel fildes iov iovcnt w).2 = true ->
  exists w' pre buffer n r w1,
    writev sys bits fuel fildes iov iovcnt w
      = (Done ERROR, w',
         EvLseek fildes 0 SEEK_CUR (lseek sys fildes 0 SEEK_CUR w).1
           :: pre ++ [EvWrite fildes buffer n r (errno w1);
                      EvLseek fildes (lseek sys fildes 0 SEEK_CUR w).1 SEEK_SET
                        (lseek sys fildes (lseek sys fildes 0 SEEK_CUR w).1
                           SEEK_SET w1).1]) /\
    r < 0 /\
    write_failed pre = false /\
    errno w' = errno w1 /\
    fs w' = fs (lseek sys fildes (lseek sys fildes 0 SEEK_CUR w).1 SEEK_SET w1).2.
Proof.
  unfold writev.
  destruct (lseek sys fildes 0 SEEK_CUR w) as [pos w0]. simpl.
  intros Hfail.
  destruct (pos =? -1); [discriminate Hfail|].
  destruct (each_iov sys bits fuel fildes pos iov (Z.to_nat iovcnt) 0 0 w0)
    as [[o w'] tr] eqn:E.
  simpl in Hfail. change (write_failed tr = true) in Hfail.
  destruct (each_iov_cases sys bits fildes pos _ _ _ _ _ _ _ _ _ E) as [[-> R]|W];
    [|congruence].
  destruct R as (pre & buffer & n & r & wb & w1 & Hw & -> & Hr & Hp & ->).
  exists (set_errno (errno w1) (lseek sys fildes pos SEEK_SET w1).2),
    pre, buffer, n, r, w1.
  repeat split; auto.
Qed.

Lemma writev_failure_hides_lseek_witness :
  exists w' pre buffer n r w1,
    writev (stuck_sys 3) 32 10 3 [mk_iovec 100 3; mk_iovec 200 5] 2
        (mk_world 0 (mk_disk 10 4))
      = (Done ERROR, w',
         EvLseek 3 0 SEEK_CUR
           (lseek (stuck_sys 3) 3 0 SEEK_CUR (mk_world 0 (mk_disk 10 4))).1
           :: pre ++ [EvWrite 3 buffer n r (errno w1);
                      EvLseek 3
                        (lseek (stuck_sys 3) 3 0 SEEK_CUR (mk_world 0 (mk_disk 10 4))).1
                        SEEK_SET
                        (lseek (stuck_sys 3) 3
                           (lseek (stuck_sys 3) 3 0 SEEK_CUR
                              (mk_world 0 (mk_disk 10 4))).1
                           SEEK_SET w1).1]) /\
    r < 0 /\
    write_failed pre = false /\
    errno w' = errno w1 /\
    fs w' = fs (lseek (stuck_sys 3) 3
                  (lseek (stuck_sys 3) 3 0 SEEK_CUR (mk_world 0 (mk_disk 10 4))).1
                  SEEK_SET w1).2.
Proof.
  apply (writev_failure_hides_lseek (stuck_sys 3) 32 10 3
           [mk_iovec 100 3; mk_iovec 200 5] 2 (mk_world 0 (mk_disk 10 4))).
  vm_compute. reflexivity.
Defined.

(** The run of the witness: the device is full after four bytes, the
    lseek back fails with EINVAL, and the caller sees ENOSPC with the
    position left at 14. *)
Example run_writev_stuck :
  writev (stuck_sys 3) 32 10 3 [mk_iovec 100 3; mk_iovec 200 5] 2
    (mk_world 0 (mk_disk 10 4))
  = (Done ERROR, mk_world ENOSPC (mk_disk 14 0),
     [EvLseek 3 0 SEEK_CUR 10; EvWrite 3 100 3 3 0; EvWrite 3 200 5 1 0;
      EvWrite 3 201 4 (-1) ENOSPC; EvLseek 3 10 SEEK_SET (-1)]).
Proof. reflexivity. Qed.

End WritevExtra.
